(** * pydle: the session layer of an IRC client (pydle/client.py)

    A shallow embedding of [BasicClient] and [ClientPool]: the registry of
    channels and users, the connection supervisor with its reconnect
    policy, the dispatch loop and the pool multiplexer.  Methods that
    mutate [self] are functions in a state-and-exception monad over the
    record [client]; Python dictionaries are [gmap]s, Python sets are
    [gset]s. *)

From Stdlib Require Import ZArith String Ascii List Lia.
From stdpp Require Import base option gmap sets list strings pretty.

Local Open Scope Z_scope.
Local Open Scope string_scope.

(** ** Python values used by the client *)

(** The exceptions the modelled code can raise.  [OtherError] stands for
    any exception class raised by code outside the core (handlers). *)
Inductive exn :=
| ValueError
| KeyError
| TypeError
| IndexError
| NotImplementedError
| NoMessageAvailable
| OtherError (name : string).

#[global] Instance exn_eq_dec : EqDecision exn.
Proof. solve_decision. Defined.

(** A value that is either [None] or a [str]. *)
Abbreviation pyval := (option string).

(** Truthiness of an optional string: [None] and [''] are falsy. *)
Definition truthy_str (v : option string) : bool :=
  match v with
  | Some s => negb (String.eqb s "")
  | None => false
  end.

(** Truthiness of an optional integer: [None] and [0] are falsy. *)
Definition truthy_int (v : option Z) : bool :=
  match v with
  | Some z => negb (z =? 0)%Z
  | None => false
  end.

(** [c in s] for a one-character string [c]. *)
Fixpoint char_in (c : ascii) (s : string) : bool :=
  match s with
  | EmptyString => false
  | String d rest => if Ascii.eqb c d then true else char_in c rest
  end.

(** ['.' in nick] *)
Definition has_dot (nick : string) : bool := char_in "."%char nick.

(** [str.lower()] on the ASCII range: the letters A to Z are lowered and
    every other character is kept.  [str.lower()] also lowers letters
    beyond that range, so the model follows the code on ASCII strings. *)
Definition lower_char (c : ascii) : ascii :=
  let n := nat_of_ascii c in
  if ((65 <=? n)%nat && (n <=? 90)%nat)%bool then ascii_of_nat (n + 32) else c.

Fixpoint lower (s : string) : string :=
  match s with
  | EmptyString => EmptyString
  | String c rest => String (lower_char c) (lower rest)
  end.

(** ** Records of the data model *)

(** A channel entry: the dictionary [{'users': set()}]. *)
Record channel := { ch_users : gset string }.

(** A user entry is a dictionary from field names to values; created with
    the keys nickname, username, realname and hostname. *)
Abbreviation user := (gmap string pyval).

(** Modelled from the spec: the transport ([pydle.connection.Connection]),
    which is not part of the source at hand.  The spec lists its
    interface: connect(), disconnect(), a [connected] status and a
    [hostname].  [conn_connect] and [conn_disconnect] only flip the
    status. *)
Record Connection := {
  conn_hostname : option string;
  conn_port : Z;
  conn_source_address : option string;
  conn_connected : bool
}.

Definition conn_connect (c : Connection) : Connection :=
  {| conn_hostname := conn_hostname c; conn_port := conn_port c;
     conn_source_address := conn_source_address c; conn_connected := true |}.

Definition conn_disconnect (c : Connection) : Connection :=
  {| conn_hostname := conn_hostname c; conn_port := conn_port c;
     conn_source_address := conn_source_address c; conn_connected := false |}.

(** An argument of a logging call. *)
Inductive logarg :=
| ArgInt (z : Z)
| ArgStr (s : string)
| ArgVal (v : pyval)
| ArgList (l : list string).

Inductive loglevel := DEBUG | WARNING | ERROR | EXCEPTION.

(** What the client does to the outside world, in order: logging calls,
    [time.sleep], and calls on the transport. *)
Inductive event :=
| Log (level : loglevel) (fmt : string) (args : list logarg)
| Sleep (delay : Z)
| TransportConnect
| TransportDisconnect
| TransportOn (what : string)
| TransportSend (data : string).

(** The class attributes of the reconnect policy; a subclass overrides
    them. *)
Record policy := {
  RECONNECT_ON_ERROR : bool;
  RECONNECT_MAX_ATTEMPTS : option nat;
  RECONNECT_DELAYED : bool;
  RECONNECT_DELAYS : list Z
}.

(** The class attributes of [BasicClient] itself. *)
Definition BasicClient_policy : policy :=
  {| RECONNECT_ON_ERROR := true;
     RECONNECT_MAX_ATTEMPTS := Some 3%nat;
     RECONNECT_DELAYED := true;
     RECONNECT_DELAYS := [0; 30; 120; 600]%Z |}.

Definition UNREGISTERED_NICKNAME : string := "<unregistered>".

(** The instance attributes of a client, with the trace of its effects. *)
Record client := {
  cls : policy;
  _nicknames : list string;
  username : pyval;
  realname : pyval;
  hostname : pyval;
  (* _reset_attributes *)
  channels : gmap string channel;
  users : gmap string user;
  _receive_buffer : string;
  logger : string;
  nickname : string;
  network : pyval;
  (* _reset_connection_attributes *)
  connection : option Connection;
  encoding : pyval;
  _has_quit : bool;
  _autojoin_channels : list string;
  _reconnect_attempts : nat;
  (* effects *)
  trace : list event
}.

Definition set_username (v : pyval) (st : client) : client :=
  let '(Build_client a b _ d e f g h i j k l m n o p q) := st in
  Build_client a b v d e f g h i j k l m n o p q.
Definition set_hostname (v : pyval) (st : client) : client :=
  let '(Build_client a b c d _ f g h i j k l m n o p q) := st in
  Build_client a b c d v f g h i j k l m n o p q.
Definition set_channels (v : gmap string channel) (st : client) : client :=
  let '(Build_client a b c d e _ g h i j k l m n o p q) := st in
  Build_client a b c d e v g h i j k l m n o p q.
Definition set_users (v : gmap string user) (st : client) : client :=
  let '(Build_client a b c d e f _ h i j k l m n o p q) := st in
  Build_client a b c d e f v h i j k l m n o p q.
Definition set_receive_buffer (v : string) (st : client) : client :=
  let '(Build_client a b c d e f g _ i j k l m n o p q) := st in
  Build_client a b c d e f g v i j k l m n o p q.
Definition set_logger (v : string) (st : client) : client :=
  let '(Build_client a b c d e f g h _ j k l m n o p q) := st in
  Build_client a b c d e f g h v j k l m n o p q.
Definition set_nickname (v : string) (st : client) : client :=
  let '(Build_client a b c d e f g h i _ k l m n o p q) := st in
  Build_client a b c d e f g h i v k l m n o p q.
Definition set_network (v : pyval) (st : client) : client :=
  let '(Build_client a b c d e f g h i j _ l m n o p q) := st in
  Build_client a b c d e f g h i j v l m n o p q.
Definition set_connection (v : option Connection) (st : client) : client :=
  let '(Build_client a b c d e f g h i j k _ m n o p q) := st in
  Build_client a b c d e f g h i j k v m n o p q.
Definition set_encoding (v : pyval) (st : client) : client :=
  let '(Build_client a b c d e f g h i j k l _ n o p q) := st in
  Build_client a b c d e f g h i j k l v n o p q.
Definition set_has_quit (v : bool) (st : client) : client :=
  let '(Build_client a b c d e f g h i j k l m _ o p q) := st in
  Build_client a b c d e f g h i j k l m v o p q.
Definition set_autojoin_channels (v : list string) (st : client) : client :=
  let '(Build_client a b c d e f g h i j k l m n _ p q) := st in
  Build_client a b c d e f g h i j k l m n v p q.
Definition set_reconnect_attempts (v : nat) (st : client) : client :=
  let '(Build_client a b c d e f g h i j k l m n o _ q) := st in
  Build_client a b c d e f g h i j k l m n o v q.
Definition emit (ev : event) (st : client) : client :=
  let '(Build_client a b c d e f g h i j k l m n o p q) := st in
  Build_client a b c d e f g h i j k l m n o p (q ++ [ev]).

(** ** The monad of methods: state and exceptions

    A method either returns a value or raises; both carry the state as
    the method left it, since a raise does not undo earlier mutations. *)
Inductive outcome (A : Type) :=
| Return (a : A) (st : client)
| Raise (e : exn) (st : client).
Arguments Return {A} a st.
Arguments Raise {A} e st.

Definition M (A : Type) : Type := client -> outcome A.

Definition ret {A} (a : A) : M A := fun st => Return a st.
Definition raise {A} (e : exn) : M A := fun st => Raise e st.
Definition bind {A B} (m : M A) (f : A -> M B) : M B :=
  fun st => match m st with
            | Return a st' => f a st'
            | Raise e st' => Raise e st'
            end.
Definition get : M client := fun st => Return st st.
Definition modify (f : client -> client) : M unit := fun st => Return tt (f st).

#[global] Instance M_ret : MRet M := @ret.
#[global] Instance M_bind : MBind M := fun A B f m => bind m f.

(** The state an outcome leaves behind. *)
Definition state_of {A} (o : outcome A) : client :=
  match o with
  | Return _ st => st
  | Raise _ st => st
  end.


(** [for x in l: body(x)] *)
Fixpoint for_each {A} (l : list A) (body : A -> M unit) : M unit :=
  match l with
  | [] => ret tt
  | x :: rest => body x ;; for_each rest body
  end.

(** [if b: body] *)
Definition when (b : bool) (body : M unit) : M unit :=
  if b then body else ret tt.

(** ** Resetting attributes *)

Definition _reset_attributes : M unit :=
  modify (set_channels ∅) ;;
  modify (set_users ∅) ;;
  modify (set_receive_buffer "") ;;
  modify (set_logger "pydle.client") ;;
  modify (set_nickname UNREGISTERED_NICKNAME) ;;
  modify (set_network None).

Definition _reset_connection_attributes : M unit :=
  modify (set_connection None) ;;
  modify (set_encoding None) ;;
  modify (set_has_quit false) ;;
  modify (set_autojoin_channels []) ;;
  modify (set_reconnect_attempts 0%nat).

(** ** Internal database management (the registry) *)

Definition is_same_nick (left right : string) : bool := String.eqb left right.
Definition is_same_channel (left right : string) : bool := String.eqb left right.

Definition _create_channel (chan : string) : M unit :=
  modify (fun st => set_channels (<[chan := {| ch_users := ∅ |}]> (channels st)) st).

(** [self.channels[chan]]: raises [KeyError] on a missing key. *)
Definition getitem_channel (chan : string) : M channel :=
  st ← get ;
  match channels st !! chan with
  | Some ch => ret ch
  | None => raise KeyError
  end.

(** [s[:]] for a set [s]: sets do not support subscripting, the
    expression raises [TypeError] whatever the set holds. *)
Definition set_slice (s : gset string) : M (list string) := raise TypeError.

(** [ch['users'].discard(nick)] *)
Definition discard (nick : string) (ch : channel) : channel :=
  {| ch_users := ch_users ch ∖ {[nick]} |}.

(** [any(nick in ch['users'] for ch in self.channels.values())] *)
Definition in_any_channel (nick : string) (chans : gmap string channel) : bool :=
  bool_decide (map_Exists (fun _ ch => nick ∈ ch_users ch) chans).

(** [del self.users[nick]]: raises [KeyError] on a missing key. *)
Definition delitem_user (nick : string) : M unit :=
  st ← get ;
  match users st !! nick with
  | Some _ => modify (set_users (delete nick (users st)))
  | None => raise KeyError
  end.

(** [del self.channels[chan]] *)
Definition delitem_channel (chan : string) : M unit :=
  st ← get ;
  match channels st !! chan with
  | Some _ => modify (set_channels (delete chan (channels st)))
  | None => raise KeyError
  end.

Definition _destroy_user (nick : string) (chan : option string) : M unit :=
  (if truthy_str chan then
     (* channels = [ self.channels[channel] ] *)
     let name := default "" chan in
     _ ← getitem_channel name ;
     modify (fun st => set_channels (alter (discard nick) name (channels st)) st)
   else
     (* channels = self.channels.values() *)
     modify (fun st => set_channels (discard nick <$> channels st) st)) ;;
  st ← get ;
  when (negb (truthy_str chan) || negb (in_any_channel nick (channels st)))
       (delitem_user nick).

Definition _destroy_channel (chan : string) : M unit :=
  ch ← getitem_channel chan ;
  snapshot ← set_slice (ch_users ch) ;
  for_each snapshot (fun u => _destroy_user u (Some chan)) ;;
  delitem_channel chan.

Definition new_user (nick : string) : user :=
  <["nickname" := Some nick]>
    (<["username" := None]> (<["realname" := None]> (<["hostname" := None]> ∅))).

Definition _create_user (nick : string) : M unit :=
  modify (fun st => set_users (<[nick := new_user nick]> (users st)) st).

(** [d.update(metadata)]: the keys of [metadata] overwrite. *)
Definition update (metadata d : user) : user := metadata ∪ d.

Definition _sync_user (nick : string) (metadata : user) : M unit :=
  if has_dot nick then ret tt
  else
    st ← get ;
    when (negb (bool_decide (is_Some (users st !! nick)))) (_create_user nick) ;;
    st ← get ;
    let is_self := is_same_nick (nickname st) nick in
    when is_self
      (match metadata !! "username" with
       | Some v => modify (set_username v)
       | None => ret tt
       end ;;
       match metadata !! "hostname" with
       | Some v => modify (set_hostname v)
       | None => ret tt
       end) ;;
    st ← get ;
    match users st !! nick with
    | Some _ => modify (set_users (alter (update metadata) nick (users st)))
    | None => raise KeyError
    end.

(** In a channel's member set, replace [old] by [new] when present. *)
Definition rename_member (old new : string) (ch : channel) : channel :=
  if bool_decide (old ∈ ch_users ch)
  then {| ch_users := (ch_users ch ∖ {[old]}) ∪ {[new]} |}
  else ch.

(** [self.users[new] = self.users[user]] makes both keys refer to one
    dictionary, so the write to its nickname field shows under both keys
    until the old key is deleted. *)
Definition _rename_user (old new : string) : M unit :=
  st ← get ;
  match users st !! old with
  | Some u =>
      let shared := <[new := u]> (users st) in
      let written :=
        alter (<["nickname" := Some new]>) new
          (alter (<["nickname" := Some new]>) old shared) in
      modify (set_users (delete old written))
  | None => _create_user new
  end ;;
  modify (fun st => set_channels (rename_member old new <$> channels st) st).

(** [d[key]] on a user entry: raises [KeyError] on a missing key. *)
Definition getitem_field (u : user) (key : string) : M pyval :=
  match u !! key with
  | Some v => ret v
  | None => raise KeyError
  end.

(** [v or '*'] *)
Definition or_star (v : pyval) : string :=
  if truthy_str v then default "" v else "*".

(** The entry [_format_hostmask] falls back to for an unknown nickname. *)
Definition unknown_user : user :=
  <["username" := Some "*"]> (<["hostname" := Some "*"]> ∅).

Definition _format_hostmask (nick : string) : M string :=
  st ← get ;
  let u := default unknown_user (users st !! nick) in
  uname ← getitem_field u "username" ;
  host ← getitem_field u "hostname" ;
  ret (nick ++ "!" ++ or_star uname ++ "@" ++ or_star host).

(** ** IRC helpers *)

Definition is_channel (chan : string) : bool := true.

Definition in_channel (chan : string) (st : client) : bool :=
  bool_decide (chan ∈ dom (channels st)).

(** The registry operations, as data, to speak about sequences of them. *)
Inductive registry_op :=
| CreateChannel (chan : string)
| DestroyChannel (chan : string)
| CreateUser (nick : string)
| SyncUser (nick : string) (metadata : user)
| RenameUser (old new : string)
| DestroyUser (nick : string) (chan : option string).

Definition run_op (op : registry_op) : M unit :=
  match op with
  | CreateChannel c => _create_channel c
  | DestroyChannel c => _destroy_channel c
  | CreateUser n => _create_user n
  | SyncUser n md => _sync_user n md
  | RenameUser a b => _rename_user a b
  | DestroyUser n c => _destroy_user n c
  end.

(** A sequence of operations; an operation that raises leaves the state
    it reached, and the caller goes on with the next one (as the dispatch
    loop does after a handler fault). *)
Definition run_ops (ops : list registry_op) (st : client) : client :=
  fold_left (fun s op => state_of (run_op op s)) ops st.

(** ** IRC attributes *)

(** [self.connection and self.connection.connected] *)
Definition connected (st : client) : bool :=
  match connection st with
  | Some c => conn_connected c
  | None => false
  end.

(** [tag.rsplit('.', 1)] for a tag that holds a dot: the text before
    the last dot and the text after it. *)
Fixpoint rsplit_dot (s : string) : option (string * string) :=
  match s with
  | EmptyString => None
  | String c rest =>
      match rsplit_dot rest with
      | Some (host, suffix) => Some (String c host, suffix)
      | None => if Ascii.eqb c "."%char then Some (EmptyString, rest) else None
      end
  end.

Definition is_digit (c : ascii) : bool :=
  let n := nat_of_ascii c in ((48 <=? n)%nat && (n <=? 57)%nat)%bool.

Definition is_space (c : ascii) : bool :=
  let n := nat_of_ascii c in
  ((n =? 32)%nat || ((9 <=? n)%nat && (n <=? 13)%nat))%bool.

Fixpoint lstrip (s : string) : string :=
  match s with
  | String c rest => if is_space c then lstrip rest else s
  | EmptyString => s
  end.

Fixpoint rstrip (s : string) : string :=
  match s with
  | String c rest =>
      match rstrip rest with
      | EmptyString => if is_space c then EmptyString else String c EmptyString
      | r => String c r
      end
  | EmptyString => s
  end.

(** Digits, with single underscores between digits only; [after_digit]
    tells whether the previous character was a digit. *)
Fixpoint digits_from (after_digit : bool) (s : string) : bool :=
  match s with
  | EmptyString => after_digit
  | String c rest =>
      if is_digit c then digits_from true rest
      else if Ascii.eqb c "_"%char then (after_digit && digits_from false rest)%bool
      else false
  end.

(** Whether [int(s)] returns rather than raising [ValueError], on the
    ASCII range: surrounding white space, an optional sign, digits. *)
Definition int_parses (s : string) : bool :=
  match lstrip (rstrip s) with
  | String c rest =>
      if (Ascii.eqb c "+"%char || Ascii.eqb c "-"%char)%bool
      then digits_from false rest
      else digits_from false (String c rest)
  | EmptyString => false
  end.

Definition server_tag (st : client) : pyval :=
  match connection st with
  | Some c =>
      if (conn_connected c && truthy_str (conn_hostname c))%bool then
        if truthy_str (network st) then
          Some (lower (default "" (network st)))
        else
          let tag := lower (default "" (conn_hostname c)) in
          (* Remove hostname prefix. *)
          let tag := if String.prefix "irc." tag
                     then String.substring 4 (String.length tag - 4) tag
                     else tag in
          (* Check if host is either an FQDN or IPv4. *)
          if has_dot tag then
            match rsplit_dot tag with
            | Some (host, suffix) =>
                if int_parses suffix then Some tag else Some host
            | None => Some tag
            end
          else Some tag
      else None
  | None => None
  end.

(** ** Connection *)

(** Keyword arguments of [connect], handed on to [_connect]. *)
Record connect_kwargs := {
  kw_channels : list string;
  kw_encoding : string;
  kw_source_address : option string
}.

(** [RecursionError] is what the interpreter raises when calls nest
    deeper than its limit; [connect], [disconnect] and [on_disconnect]
    call each other, and carry the remaining depth. *)
Definition RecursionError : exn := OtherError "RecursionError".
Definition AttributeError : exn := OtherError "AttributeError".

Definition _reconnect_delay : M Z :=
  st ← get ;
  if (RECONNECT_ON_ERROR (cls st) && RECONNECT_DELAYED (cls st))%bool then
    let delays := RECONNECT_DELAYS (cls st) in
    if (length delays <? _reconnect_attempts st)%nat then
      (* self.RECONNECT_DELAYS[-1] *)
      match last delays with
      | Some d => ret d
      | None => raise IndexError
      end
    else
      (* self.RECONNECT_DELAYS[self._reconnect_attempts] *)
      match delays !! _reconnect_attempts st with
      | Some d => ret d
      | None => raise IndexError
      end
  else ret 0%Z.

(** [time.sleep(delay)]: blocks, and refuses a negative length with
    [ValueError]. *)
Definition time_sleep (delay : Z) : M unit :=
  if (delay <? 0)%Z then raise ValueError else modify (emit (Sleep delay)).

Section Supervisor.
(** [protocol.DEFAULT_PORT] and [protocol.DEFAULT_ENCODING], constants
    of the message codec, which is not part of the source at hand. *)
Variable DEFAULT_PORT : Z.
Variable DEFAULT_ENCODING : string.

Definition default_kwargs : connect_kwargs :=
  {| kw_channels := []; kw_encoding := DEFAULT_ENCODING;
     kw_source_address := None |}.

Definition _connect (host : option string) (port : option Z)
    (reconnect : bool) (kw : connect_kwargs) : M unit :=
  when (negb reconnect) (modify (set_autojoin_channels (kw_channels kw))) ;;
  (* Create connection if we can't reuse it. *)
  st ← get ;
  when (negb reconnect || negb (bool_decide (is_Some (connection st))))
    (modify (set_connection (Some
       {| conn_hostname := host;
          conn_port := if truthy_int port then default 0%Z port else DEFAULT_PORT;
          conn_source_address := kw_source_address kw;
          conn_connected := false |})) ;;
     modify (set_encoding (Some (kw_encoding kw)))) ;;
  (* Connect. *)
  st ← get ;
  match connection st with
  | Some c =>
      modify (set_connection (Some (conn_connect c))) ;;
      modify (emit TransportConnect)
  | None => raise AttributeError
  end ;;
  (* Add handlers. *)
  modify (emit (TransportOn "read")) ;;
  modify (emit (TransportOn "error")).

Fixpoint connect (depth : nat) (host : option string) (port : option Z)
    (reconnect : bool) (kw : connect_kwargs) {struct depth} : M unit :=
  match depth with
  | O => raise RecursionError
  | S d =>
      if ((negb (truthy_str host) || negb (truthy_int port)) && negb reconnect)%bool
      then raise ValueError
      else
        (* Disconnect from current connection. *)
        st ← get ;
        when (connected st) (disconnect d) ;;
        (* Reset attributes and connect. *)
        when (negb reconnect) _reset_connection_attributes ;;
        _connect host port reconnect kw ;;
        (* Set logger name. *)
        st ← get ;
        match server_tag st with
        | Some tag => modify (set_logger ("BasicClient:" ++ tag))
        | None => raise TypeError
        end
  end
with disconnect (depth : nat) {struct depth} : M unit :=
  match depth with
  | O => raise RecursionError
  | S d =>
      st ← get ;
      match connection st with
      | Some c =>
          when (conn_connected c)
            (modify (set_connection (Some (conn_disconnect c))) ;;
             modify (emit TransportDisconnect) ;;
             st ← get ;
             on_disconnect d (_has_quit st) ;;
             (* Reset any attributes. *)
             _reset_attributes)
      | None => ret tt
      end
  end
with on_disconnect (depth : nat) (expected : bool) {struct depth} : M unit :=
  match depth with
  | O => raise RecursionError
  | S d =>
      when (negb expected)
        (st ← get ;
         (* Unexpected disconnect. Reconnect? *)
         if (RECONNECT_ON_ERROR (cls st) &&
             match RECONNECT_MAX_ATTEMPTS (cls st) with
             | None => true
             | Some most => (_reconnect_attempts st <? most)%nat
             end)%bool
         then
           (* Calculate reconnect delay. *)
           delay ← _reconnect_delay ;
           modify (fun st => set_reconnect_attempts (S (_reconnect_attempts st)) st) ;;
           (if (0 <? delay)%Z
            then modify (emit (Log ERROR
                   "Unexpected disconnect. Attempting to reconnect within %s seconds."
                   [ArgInt delay]))
            else modify (emit (Log ERROR
                   "Unexpected disconnect. Attempting to reconnect." []))) ;;
           (* Wait and reconnect. *)
           time_sleep delay ;;
           connect d None None true default_kwargs
         else
           modify (emit (Log ERROR "Unexpected disconnect. Giving up." [])))
  end.

(** [on_data_error]: a transport error disconnects. *)
Definition on_data_error (depth : nat) : M unit :=
  match depth with
  | O => raise RecursionError
  | S d => disconnect d
  end.

(** [on_connect]; [join] belongs to the protocol layer and is a
    parameter here. *)
Definition on_connect (join : string -> M unit) : M unit :=
  (* Reset reconnect attempts. *)
  modify (set_reconnect_attempts 0%nat) ;;
  (* Auto-join channels. *)
  st ← get ;
  for_each (_autojoin_channels st) join.
End Supervisor.

(** ** Message dispatch *)

(** The message shape the dispatch consumes; [command] is a number or a
    string. *)
Record message := {
  source : pyval;
  command : Z + string;
  params : list string;
  _valid : bool;
  _raw : string
}.

(** [s.zfill(width)]: zeros are put after a leading sign. *)
Definition zfill (width : nat) (s : string) : string :=
  let pad := String.concat "" (repeat "0" (width - String.length s)) in
  match s with
  | String c rest =>
      if (Ascii.eqb c "+"%char || Ascii.eqb c "-"%char)%bool
      then String c (pad ++ rest)
      else pad ++ s
  | EmptyString => pad
  end.

(** The name of the handler a message is routed to. *)
Definition method_name (msg : message) : string :=
  let cmd := match command msg with
             | inl n => zfill 3 (pretty n)
             | inr s => s
             end in
  "on_raw_" ++ lower cmd.

Definition command_arg (msg : message) : logarg :=
  match command msg with
  | inl n => ArgInt n
  | inr s => ArgStr s
  end.

(** [try: body except: handler] with a bare [except], which catches
    every exception. *)
Definition try_except {A} (body : M A) (handler : exn -> M A) : M A :=
  fun st => match body st with
            | Return a st' => Return a st'
            | Raise e st' => handler e st'
            end.

Definition on_unknown (msg : message) : M unit :=
  modify (emit (Log WARNING "Unknown command: [%s] %s %s"
                  [ArgVal (source msg); command_arg msg; ArgList (params msg)])).

(** A handler method. *)
Abbreviation handler := (message -> M unit).

Section Dispatch.
(** The methods a subclass defines, by attribute name: the
    per-command hooks [on_raw_xxx], and possibly its own
    [on_unknown]. *)
Variable hooks : gmap string handler.

(** [getattr(self, method)] for the two kinds of names that
    [on_raw] looks up. *)
Definition getattr (method : string) : option handler :=
  match hooks !! method with
  | Some h => Some h
  | None => if String.eqb method "on_unknown" then Some on_unknown else None
  end.

Definition on_raw (msg : message) : M unit :=
  modify (emit (Log DEBUG "<< [%s] %s %s"
                  [ArgStr (if truthy_str (source msg) then default "" (source msg) else "");
                   command_arg msg; ArgList (params msg)])) ;;
  when (negb (_valid msg))
    (modify (emit (Log WARNING
       "Encountered strictly invalid IRC message from server: %s"
       [ArgStr (_raw msg)]))) ;;
  (* Invoke dispatcher, if we have one. *)
  let method := method_name msg in
  let method := if bool_decide (is_Some (getattr method))
                then method else "on_unknown" in
  try_except
    (match getattr method with
     | Some h => h msg
     | None => raise AttributeError
     end)
    (fun _ => modify (emit (Log EXCEPTION "Failed to execute %s handler."
                              [ArgStr method]))).

(** Modelled from the spec: the message codec, which is not part of
    the source at hand ([_has_message] and [_parse_message] raise
    [NotImplementedError] in [BasicClient]; a protocol subclass
    implements them).  The spec gives the codec as
    hasCompleteMessage(buffer) and parseOne(buffer) returning the
    message and the remainder. *)
Variable has_complete_message : string -> bool.
Variable parse_one : string -> message * string.

Definition _has_message : M bool :=
  st ← get ; ret (has_complete_message (_receive_buffer st)).

Definition _parse_message : M message :=
  st ← get ;
  let '(msg, rest) := parse_one (_receive_buffer st) in
  modify (set_receive_buffer rest) ;; ret msg.

(** [while self._has_message(): ...]; [None] when [fuel] iterations
    did not end the loop. *)
Fixpoint dispatch_loop (fuel : nat) (st : client) : option (outcome unit) :=
  match _has_message st with
  | Raise e st' => Some (Raise e st')
  | Return false st' => Some (Return tt st')
  | Return true st' =>
      match fuel with
      | O => None
      | S f =>
          match (msg ← _parse_message ; on_raw msg) st' with
          | Return _ st'' => dispatch_loop f st''
          | Raise e st'' => Some (Raise e st'')
          end
      end
  end.

Definition on_data (fuel : nat) (data : string) (st : client)
    : option (outcome unit) :=
  dispatch_loop fuel (set_receive_buffer (_receive_buffer st ++ data) st).

(** The handler name [on_raw] ends up calling, after the fallback. *)
Definition resolve (msg : message) : string :=
  if bool_decide (is_Some (getattr (method_name msg)))
  then method_name msg else "on_unknown".

(** The logging calls that open [on_raw]. *)
Definition announce (msg : message) : M unit :=
  modify (emit (Log DEBUG "<< [%s] %s %s"
                  [ArgStr (if truthy_str (source msg) then default "" (source msg) else "");
                   command_arg msg; ArgList (params msg)])) ;;
  when (negb (_valid msg))
    (modify (emit (Log WARNING
       "Encountered strictly invalid IRC message from server: %s"
       [ArgStr (_raw msg)]))).

(** The hooks leave the receive buffer to the dispatch loop. *)
Definition hooks_keep_buffer : Prop :=
  forall name h msg st,
    hooks !! name = Some h ->
    _receive_buffer (state_of (h msg st)) = _receive_buffer st.

(** Framing a message out of a buffer shortens the buffer. *)
Definition codec_progress : Prop :=
  forall buffer,
    has_complete_message buffer = true ->
    (String.length (parse_one buffer).2 < String.length buffer)%nat.
End Dispatch.

(** A codec for the examples: one command per line. *)
Definition newline : string := String "010"%char EmptyString.

Fixpoint split_line (s : string) : string * string :=
  match s with
  | EmptyString => (EmptyString, EmptyString)
  | String c rest =>
      if Ascii.eqb c "010"%char then (EmptyString, rest)
      else let '(line, tail) := split_line rest in (String c line, tail)
  end.

Definition line_has_message (buffer : string) : bool := char_in "010"%char buffer.

Definition line_parse (buffer : string) : message * string :=
  let '(line, rest) := split_line buffer in
  ({| source := None; command := inr line; params := []; _valid := true;
      _raw := line |}, rest).

(** Hooks for the examples: the one for PRIVMSG raises, the one for PING
    answers. *)
Definition example_hooks : gmap string handler :=
  <["on_raw_privmsg" := fun _ => raise (OtherError "RuntimeError")]>
    (<["on_raw_ping" := fun _ => modify (emit (TransportSend "PONG"))]> ∅).

(** Hooks of a subclass whose PRIVMSG hook empties the receive buffer, as
    [_reset_attributes] does, before it raises. *)
Definition resetting_hooks : gmap string handler :=
  <["on_raw_privmsg" :=
      fun _ => modify (set_receive_buffer "") ;; raise (OtherError "RuntimeError")]>
    (<["on_raw_ping" := fun _ => modify (emit (TransportSend "PONG"))]> ∅).

(** ** The pool of clients *)

Section Pool.
(** A session of the pool, as the pool sees it: whether it has a
    message pending ([client._has_message()]) and the consumption of
    one message ([client.poll_single()]), which changes that session
    only. *)
Variable session : Type.
Variable result : Type.
Variable session_has_message : session -> bool.
Variable session_poll_single : session -> result * session.

(** [clients] is the set of sessions in its iteration order;
    [client_cycle] is the state of [itertools.cycle(self.clients)]:
    the index of the element it yields next. *)
Record ClientPool := {
  clients : list session;
  client_cycle : nat
}.

(** [ClientPool(clients)] *)
Definition new_pool (l : list session) : ClientPool :=
  {| clients := l; client_cycle := 0 |}.

(** Modelled from the spec: [connpool.has_message()] of the
    connection pool, which is not part of the source at hand: whether
    any session currently has a decodable message pending. *)
Definition has_message (p : ClientPool) : bool :=
  existsb session_has_message (clients p).

(** The index after [i] in the cycle. *)
Definition advance (p : ClientPool) (i : nat) : nat :=
  (S i) mod (length (clients p)).

(** [for client in self.client_cycle: if client._has_message(): ...]:
    the index of the first session with a message, from the cursor
    on; [steps] bounds the elements drawn from the cycle. *)
Fixpoint next_ready (p : ClientPool) (steps pos : nat) : option nat :=
  match steps with
  | O => None
  | S k =>
      match clients p !! pos with
      | Some c => if session_has_message c then Some pos
                  else next_ready p k (advance p pos)
      | None => None
      end
  end.

(** The outcome of [handle_message]: the session serviced (by index),
    what its [poll_single] returned, and the pool afterwards; or the
    exception raised.  [None]: no session of a whole round has a
    message, the loop over the cycle does not end. *)
Definition handle_message (p : ClientPool)
    : option (exn + (nat * result * ClientPool)) :=
  if negb (has_message p) then Some (inl NoMessageAvailable)
  else
    match next_ready p (length (clients p)) (client_cycle p) with
    | Some i =>
        match clients p !! i with
        | Some c =>
            let '(r, c') := session_poll_single c in
            Some (inr (i, r, {| clients := <[i := c']> (clients p);
                                client_cycle := advance p i |}))
        | None => None
        end
    | None => None
    end.

(** Whether the session at index [i] has a message pending. *)
Definition ready_at (p : ClientPool) (i : nat) : bool :=
  match clients p !! i with
  | Some c => session_has_message c
  | None => false
  end.

(** [i] is the first session with a message in the cyclic order that
    starts at index [start]. *)
Definition first_ready_from (p : ClientPool) (start i : nat) : Prop :=
  exists k : nat,
    (k < length (clients p))%nat /\
    i = ((start + k) mod length (clients p))%nat /\
    ready_at p i = true /\
    forall m : nat, (m < k)%nat ->
      ready_at p ((start + m) mod length (clients p))%nat = false.
End Pool.

(** The sessions serviced by [k] calls of [handle_message] in a row, in
    order; the list ends early at a call that services none. *)
Fixpoint serviced_order {session result : Type}
    (session_has_message : session -> bool)
    (session_poll_single : session -> result * session)
    (k : nat) (p : ClientPool session) : list nat :=
  match k with
  | O => []
  | S k' =>
      match handle_message session result session_has_message
              session_poll_single p with
      | Some (inr (i, _, p')) =>
          i :: serviced_order session_has_message session_poll_single k' p'
      | _ => []
      end
  end.

(** Sessions as counters of pending messages: polling consumes one. *)
Definition counter_has_message (n : nat) : bool := (0 <? n)%nat.
Definition counter_poll_single (n : nat) : nat * nat := (n, pred n).

(** ** Properties of the state, and sessions used as examples *)

(** No dangling reference: every member of every channel is a key of
    the user table. *)
Definition no_dangling (st : client) : Prop :=
  map_Forall (fun _ ch => ch_users ch ⊆ dom (users st)) (channels st).

#[global] Instance no_dangling_dec st : Decision (no_dangling st).
Proof. unfold no_dangling. apply _. Defined.

(** No channel has a member. *)
Definition members_empty (st : client) : Prop :=
  map_Forall (fun _ ch => ch_users ch = ∅) (channels st).

(** No key of the user table is a server name. *)
Definition no_server_keys (st : client) : Prop :=
  map_Forall (fun nick _ => has_dot nick = false) (users st).

#[global] Instance no_server_keys_dec st : Decision (no_server_keys st).
Proof. unfold no_server_keys. apply _. Defined.


(** [BasicClient(nickname, fallback_nicknames, username, realname)] for
    a class with the reconnect policy [pol]. *)
Definition init (pol : policy) (nick : string) (fallback : list string)
    (uname rname : pyval) : client :=
  {| cls := pol;
     _nicknames := nick :: fallback;
     username := if truthy_str uname then uname else Some (lower nick);
     realname := if truthy_str rname then rname else Some nick;
     hostname := None;
     channels := ∅; users := ∅; _receive_buffer := "";
     logger := "pydle.client";
     nickname := UNREGISTERED_NICKNAME; network := None;
     connection := None; encoding := None; _has_quit := false;
     _autojoin_channels := []; _reconnect_attempts := 0%nat;
     trace := [] |}.

Definition alice : client := init BasicClient_policy "alice" [] None None.

(** Alice's session with the channels [#a] and [#b]: bob is in both,
    carol in [#a] only. *)
Definition two_channels : client :=
  set_channels
    (<["#a" := {| ch_users := {["bob"; "carol"]} |}]>
       (<["#b" := {| ch_users := {["bob"]} |}]> ∅))
    (set_users
       (<["bob" := new_user "bob"]> (<["carol" := new_user "carol"]> ∅))
       alice).

(** [_rename_user a b] immediately followed by [_rename_user b a]. *)
Definition rename_there_and_back (a b : string) : M unit :=
  _rename_user a b ;; _rename_user b a.

(** Bob's entry after a metadata update that carried another nickname. *)
Definition mislabelled : client :=
  run_ops [CreateUser "bob"; SyncUser "bob" {["nickname" := Some "zed"]}] alice.

(** Bob is known; rob is not, but sits in the member set of [#a]. *)
Definition stray_member : client :=
  set_channels (<["#a" := {| ch_users := {["rob"]} |}]> ∅)
    (set_users (<["bob" := new_user "bob"]> ∅) alice).

(** The delay the policy schedules at an attempt count, when delayed
    reconnection is on; [None] where the lookup in the schedule is out
    of range. *)
Definition scheduled (pol : policy) (attempts : nat) : option Z :=
  if (length (RECONNECT_DELAYS pol) <? attempts)%nat
  then last (RECONNECT_DELAYS pol)
  else RECONNECT_DELAYS pol !! attempts.

Definition backoff (pol : policy) : bool :=
  (RECONNECT_ON_ERROR pol && RECONNECT_DELAYED pol)%bool.

(** Whether the policy lets [on_disconnect] try again. *)
Definition may_reconnect (pol : policy) (attempts : nat) : bool :=
  (RECONNECT_ON_ERROR pol &&
   match RECONNECT_MAX_ATTEMPTS pol with
   | None => true
   | Some most => (attempts <? most)%nat
   end)%bool.

(** A subclass that never gives up. *)
Definition persistent_policy : policy :=
  {| RECONNECT_ON_ERROR := true; RECONNECT_MAX_ATTEMPTS := None;
     RECONNECT_DELAYED := true; RECONNECT_DELAYS := [0; 30; 120; 600]%Z |}.

(** A subclass that tries twice, at once and after half a minute. *)
Definition quick_policy : policy :=
  {| RECONNECT_ON_ERROR := true; RECONNECT_MAX_ATTEMPTS := Some 2%nat;
     RECONNECT_DELAYED := true; RECONNECT_DELAYS := [0; 30]%Z |}.

(** A session of class [pol] connected to irc.example.com. *)
Definition online (pol : policy) : client :=
  state_of (connect 6667 "utf-8" 4 (Some "irc.example.com") (Some 6667%Z)
              false (default_kwargs "utf-8") (init pol "alice" [] None None)).

(** The user table after [_rename_user old new]. *)
Definition renamed_users (old new : string) (us : gmap string user)
    : gmap string user :=
  match us !! old with
  | Some u =>
      if decide (old = new) then delete old us
      else <[new := <["nickname" := Some new]> u]> (delete old us)
  | None => <[new := new_user new]> us
  end.

(** The user table after [_sync_user nick metadata], for a nickname that
    is not a server name. *)
Definition synced_users (nick : string) (metadata : user)
    (us : gmap string user) : gmap string user :=
  match us !! nick with
  | Some u => <[nick := update metadata u]> us
  | None => <[nick := update metadata (new_user nick)]> us
  end.

(** Every user entry has the four fields it was created with. *)
Definition complete_entry (u : user) : Prop :=
  is_Some (u !! "nickname") /\ is_Some (u !! "username") /\
  is_Some (u !! "realname") /\ is_Some (u !! "hostname").

Definition complete_entries (st : client) : Prop :=
  map_Forall (fun _ u => complete_entry u) (users st).

#[global] Instance complete_entries_dec st : Decision (complete_entries st).
Proof. unfold complete_entries, complete_entry. apply _. Defined.

(** Every user entry stores its key as its nickname. *)
Definition well_labelled (st : client) : Prop :=
  map_Forall (fun nick u => u !! "nickname" = Some (Some nick)) (users st).

#[global] Instance well_labelled_dec st : Decision (well_labelled st).
Proof. unfold well_labelled. apply _. Defined.

(** A metadata update that says nothing about the nickname, or repeats
    the key. *)
Definition keeps_label (op : registry_op) : bool :=
  match op with
  | SyncUser n md =>
      bool_decide (md !! "nickname" = None \/ md !! "nickname" = Some (Some n))
  | _ => true
  end.

(** Renaming a user to the nickname it has. *)
Definition renames_to_itself (op : registry_op) : bool :=
  match op with
  | RenameUser old new => String.eqb old new
  | _ => false
  end.

(** The client after [n] transport errors in a row; an error that makes
    [on_data_error] raise leaves the state it reached. *)
Definition transport_errors (DEFAULT_PORT : Z) (DEFAULT_ENCODING : string)
    (depth n : nat) (st : client) : client :=
  Nat.iter n (fun s => state_of (on_data_error DEFAULT_PORT DEFAULT_ENCODING depth s)) st.

(** The attempt counter is within the maximum of the class [pol]. *)
Definition within_budget (pol : policy) (most : nat) (st : client) : Prop :=
  cls st = pol /\ (_reconnect_attempts st <= most)%nat.

(** The decimal digits of a number below 1000, hundreds first. *)
Definition digit (d : Z) : ascii := ascii_of_nat (48 + Z.to_nat d).

Definition three_digits (n : Z) : string :=
  String (digit (n / 100)) (String (digit (n / 10 mod 10))
    (String (digit (n mod 10)) EmptyString)).

(** A message with a numeric command. *)
Definition numeric (n : Z) : message :=
  {| source := None; command := inl n; params := []; _valid := true;
     _raw := "" |}.

(** * Theorems *)

(** Unfolding the monad. *)
Ltac run :=
  unfold mbind, M_bind, mret, M_ret, bind, ret, raise, get, modify, when in *.

(** ** The registry *)

Lemma getitem_channel_some chan ch st :
  channels st !! chan = Some ch -> getitem_channel chan st = Return ch st.
Proof. intros H. unfold getitem_channel. run. by rewrite H. Qed.

Lemma getitem_channel_none chan st :
  channels st !! chan = None -> getitem_channel chan st = Raise KeyError st.
Proof. intros H. unfold getitem_channel. run. by rewrite H. Qed.

Lemma destroy_channel_missing chan st :
  channels st !! chan = None -> _destroy_channel chan st = Raise KeyError st.
Proof.
  intros H. unfold _destroy_channel. run.
  by rewrite (getitem_channel_none _ _ H).
Qed.

(** C1.  [_destroy_channel] on a channel of the registry raises
    [TypeError] at the slice of the member set, before any member is
    destroyed and before the channel is removed: the state is the one it
    was called in. *)
Theorem destroy_channel_raises chan ch st :
  channels st !! chan = Some ch ->
  _destroy_channel chan st = Raise TypeError st.
Proof.
  intros H. unfold _destroy_channel. run.
  by rewrite (getitem_channel_some _ _ _ H).
Qed.

Lemma destroy_channel_raises_witness :
  channels two_channels !! "#a" = Some {| ch_users := {["bob"; "carol"]} |} /\
  _destroy_channel "#a" two_channels = Raise TypeError two_channels.
Proof.
  split; [reflexivity|].
  apply (destroy_channel_raises "#a" {| ch_users := {["bob"; "carol"]} |}).
  reflexivity.
Defined.

Lemma destroy_channel_state chan st :
  state_of (_destroy_channel chan st) = st.
Proof.
  unfold _destroy_channel, getitem_channel, set_slice. run.
  by destruct (channels st !! chan).
Qed.

(** *** What each operation leaves in the two tables *)

Lemma users_set_users v st : users (set_users v st) = v.
Proof. by destruct st. Qed.
Lemma users_set_channels v st : users (set_channels v st) = users st.
Proof. by destruct st. Qed.
Lemma users_set_username v st : users (set_username v st) = users st.
Proof. by destruct st. Qed.
Lemma users_set_hostname v st : users (set_hostname v st) = users st.
Proof. by destruct st. Qed.
Lemma channels_set_users v st : channels (set_users v st) = channels st.
Proof. by destruct st. Qed.
Lemma channels_set_channels v st : channels (set_channels v st) = v.
Proof. by destruct st. Qed.
Lemma channels_set_username v st : channels (set_username v st) = channels st.
Proof. by destruct st. Qed.
Lemma channels_set_hostname v st : channels (set_hostname v st) = channels st.
Proof. by destruct st. Qed.
Lemma nickname_set_users v st : nickname (set_users v st) = nickname st.
Proof. by destruct st. Qed.

Create Rewrite HintDb proj.
#[global] Hint Rewrite users_set_users users_set_channels users_set_username
  users_set_hostname channels_set_users channels_set_channels
  channels_set_username channels_set_hostname nickname_set_users : proj.

Lemma set_tables_id st : set_channels (channels st) (set_users (users st) st) = st.
Proof. by destruct st. Qed.

Lemma set_tables_twice c1 u1 c2 u2 st :
  set_channels c2 (set_users u2 (set_channels c1 (set_users u1 st)))
  = set_channels c2 (set_users u2 st).
Proof. by destruct st. Qed.

Lemma rename_user_eq old new st :
  _rename_user old new st =
  Return tt (set_channels (rename_member old new <$> channels st)
               (set_users (renamed_users old new (users st)) st)).
Proof.
  unfold _rename_user, renamed_users, _create_user. run.
  destruct (users st !! old) as [u|] eqn:E; simpl.
  - autorewrite with proj. do 3 f_equal.
    destruct (decide (old = new)) as [->|Hne].
    + apply map_eq. intros k. destruct (decide (k = new)) as [->|Hk].
      * by rewrite !lookup_delete_eq.
      * rewrite !lookup_delete_ne by done.
        rewrite !lookup_alter_ne by done. by rewrite lookup_insert_ne.
    + apply map_eq. intros k. destruct (decide (k = old)) as [->|Hk].
      * rewrite lookup_delete_eq. rewrite lookup_insert_ne by done.
        by rewrite lookup_delete_eq.
      * rewrite lookup_delete_ne by done.
        destruct (decide (k = new)) as [->|Hk'].
        -- rewrite lookup_alter_eq. rewrite lookup_alter_ne by done.
           by rewrite !lookup_insert_eq.
        -- rewrite !lookup_alter_ne by done.
           rewrite !lookup_insert_ne by done. by rewrite lookup_delete_ne.
  - by autorewrite with proj.
Qed.

Lemma sync_user_server nick metadata st :
  has_dot nick = true -> _sync_user nick metadata st = Return tt st.
Proof. intros H. unfold _sync_user. by rewrite H. Qed.

Lemma sync_user_tables nick metadata st :
  has_dot nick = false ->
  exists st', _sync_user nick metadata st = Return tt st' /\
    users st' = synced_users nick metadata (users st) /\
    channels st' = channels st.
Proof.
  intros H. unfold _sync_user, synced_users, _create_user. rewrite H. run.
  destruct (users st !! nick) as [u|] eqn:E; simpl.
  - destruct (is_same_nick (nickname st) nick);
      [destruct (metadata !! "username"); destruct (metadata !! "hostname")|];
      simpl; autorewrite with proj; rewrite E; simpl;
      eexists; (split; [reflexivity|]); autorewrite with proj;
      (split; [|done]); apply map_eq; intros k;
      (destruct (decide (k = nick)) as [->|Hk];
       [by rewrite lookup_alter_eq, lookup_insert_eq, E
       |by rewrite lookup_alter_ne, lookup_insert_ne]).
  - autorewrite with proj.
    destruct (is_same_nick (nickname st) nick);
      [destruct (metadata !! "username"); destruct (metadata !! "hostname")|];
      simpl; autorewrite with proj; rewrite lookup_insert_eq; simpl;
      eexists; (split; [reflexivity|]); autorewrite with proj;
      (split; [|done]); apply map_eq; intros k;
      (destruct (decide (k = nick)) as [->|Hk];
       [by rewrite lookup_alter_eq, !lookup_insert_eq
       |by rewrite lookup_alter_ne, !lookup_insert_ne]).
Qed.

(** [_destroy_user]: the member sets only shrink, and the user table
    loses at most the key [nick]. *)
Lemma destroy_user_tables nick chan st :
  let st' := state_of (_destroy_user nick chan st) in
  (channels st' = channels st \/
   channels st' = alter (discard nick) (default "" chan) (channels st) \/
   channels st' = discard nick <$> channels st) /\
  (users st' = users st \/ users st' = delete nick (users st)).
Proof.
  unfold _destroy_user, getitem_channel, delitem_user. run.
  destruct (truthy_str chan); simpl.
  - destruct (channels st !! default "" chan) as [ch|]; simpl; [|by auto].
    autorewrite with proj.
    destruct (in_any_channel nick _); simpl; autorewrite with proj; [by auto|].
    destruct (users st !! nick); simpl; autorewrite with proj; auto.
  - autorewrite with proj.
    destruct (users st !! nick); simpl; autorewrite with proj; auto.
Qed.

(** *** No dangling references *)

Lemma rename_member_empty old new ch :
  ch_users ch = ∅ -> rename_member old new ch = ch.
Proof.
  intros H. unfold rename_member. rewrite H.
  rewrite bool_decide_eq_false_2; [done|set_solver].
Qed.

Lemma discard_empty nick ch : ch_users ch = ∅ -> ch_users (discard nick ch) = ∅.
Proof. intros H. unfold discard. simpl. rewrite H. apply empty_difference_L. Qed.

Lemma run_op_members_empty op st :
  members_empty st -> members_empty (state_of (run_op op st)).
Proof.
  unfold members_empty. intros H. destruct op as [c|c|n|n md|a b|n c]; simpl.
  - unfold _create_channel. run. simpl. autorewrite with proj.
    by apply map_Forall_insert_2.
  - by rewrite destroy_channel_state.
  - unfold _create_user. run. simpl. by autorewrite with proj.
  - destruct (has_dot n) eqn:Hd.
    + by rewrite sync_user_server.
    + destruct (sync_user_tables n md st Hd) as (st' & -> & _ & Hc).
      simpl. by rewrite Hc.
  - rewrite rename_user_eq. simpl. autorewrite with proj.
    intros k ch'. rewrite lookup_fmap.
    destruct (channels st !! k) as [ch|] eqn:E; [|done].
    simpl. intros [= <-]. rewrite rename_member_empty; by eapply H.
  - pose proof (destroy_user_tables n c st) as [[Hc | [Hc | Hc]] _];
      simpl in Hc; rewrite Hc; [done|..].
    + intros k ch'. rewrite lookup_alter.
      destruct (decide (default "" c = k)) as [Hk|Hk]; [|by apply H].
      destruct (channels st !! default "" c) as [ch|] eqn:E; [|done].
      simpl. intros [= <-]. apply discard_empty. by eapply H.
    + intros k ch'. rewrite lookup_fmap.
      destruct (channels st !! k) as [ch|] eqn:E; [|done].
      simpl. intros [= <-]. apply discard_empty. by eapply H.
Qed.

Lemma run_ops_members_empty ops st :
  members_empty st -> members_empty (run_ops ops st).
Proof.
  unfold run_ops. revert st.
  induction ops as [|op ops IH]; intros st H; simpl; [done|].
  apply IH. by apply run_op_members_empty.
Qed.

Lemma members_empty_no_dangling st : members_empty st -> no_dangling st.
Proof.
  unfold members_empty, no_dangling. intros H k ch E.
  rewrite (H k ch E). set_solver.
Qed.

(** C3.  After every sequence of registry operations applied to a
    client whose channel table and user table are empty, every nickname
    in a channel's member set is a key of the user table. *)
Theorem no_dangling_from_empty ops st :
  channels st = ∅ -> users st = ∅ -> no_dangling (run_ops ops st).
Proof.
  intros Hc _. apply members_empty_no_dangling, run_ops_members_empty.
  unfold members_empty. rewrite Hc. apply map_Forall_empty.
Qed.

Lemma no_dangling_from_empty_witness :
  no_dangling
    (run_ops [CreateChannel "#a"; CreateUser "bob"; RenameUser "bob" "rob";
              SyncUser "carol" ∅; DestroyUser "carol" None;
              DestroyChannel "#a"] alice).
Proof. apply (no_dangling_from_empty _ alice); reflexivity. Defined.

(** The six operations never put a nickname into a member set, which is
    what the sequences above rest on; from a state with members the
    invariant is not kept by every operation: renaming a user to its own
    nickname deletes its entry and keeps its memberships. *)
Example rename_to_itself_dangles :
  no_dangling two_channels /\
  ~ no_dangling (state_of (_rename_user "bob" "bob" two_channels)).
Proof.
  split.
  - apply (bool_decide_unpack _). by vm_compute.
  - intros H. apply (bool_decide_pack _) in H. by vm_compute in H.
Qed.

(** *** Server names as keys of the user table *)









(** *** Renaming there and back *)

Lemma rename_member_back a b ch :
  b ∉ ch_users ch -> rename_member b a (rename_member a b ch) = ch.
Proof.
  intros Hb. unfold rename_member at 2.
  destruct (bool_decide (a ∈ ch_users ch)) eqn:Ha.
  - apply bool_decide_eq_true_1 in Ha. unfold rename_member. simpl.
    rewrite bool_decide_eq_true_2 by (set_unfold; naive_solver).
    destruct ch as [s]. simpl in *. f_equal.
    apply set_eq. intros x. set_unfold.
    destruct (decide (x = a)) as [->|?]; intuition congruence.
  - unfold rename_member. by rewrite bool_decide_eq_false_2.
Qed.

Lemma renamed_users_back a b u (us : gmap string user) :
  a <> b -> us !! a = Some u -> u !! "nickname" = Some (Some a) ->
  us !! b = None ->
  renamed_users b a (renamed_users a b us) = us.
Proof.
  intros Hne Ha Hn Hb. unfold renamed_users at 2. rewrite Ha.
  rewrite decide_False by done.
  unfold renamed_users. rewrite lookup_insert_eq.
  rewrite decide_False by done.
  rewrite delete_insert_eq. rewrite insert_insert_eq.
  rewrite (insert_id u) by done.
  rewrite (delete_id (delete a us)) by (by rewrite lookup_delete_ne).
  rewrite insert_delete_eq. by apply insert_id.
Qed.

(** C9, as the code has it.  When [a] is a key of the user table whose
    entry stores [a] as its nickname, and [b] is neither a key of the
    user table nor a member of any channel, [_rename_user a b] followed
    by [_rename_user b a] returns in the state it started from: the
    user table, every entry's fields and every member set are
    restored. *)
Theorem rename_round_trip a b u st :
  a <> b ->
  users st !! a = Some u ->
  u !! "nickname" = Some (Some a) ->
  users st !! b = None ->
  map_Forall (fun _ ch => b ∉ ch_users ch) (channels st) ->
  rename_there_and_back a b st = Return tt st.
Proof.
  intros Hne Ha Hn Hb Hch. unfold rename_there_and_back. run.
  rewrite rename_user_eq, rename_user_eq. autorewrite with proj.
  rewrite set_tables_twice.
  rewrite (renamed_users_back a b u) by done.
  replace (rename_member b a <$> (rename_member a b <$> channels st))
    with (channels st); [by rewrite set_tables_id|].
  apply map_eq. intros k. rewrite !lookup_fmap.
  destruct (channels st !! k) as [ch|] eqn:E; [|done].
  simpl. f_equal. symmetry. apply rename_member_back. by eapply Hch.
Qed.

Lemma rename_round_trip_witness :
  rename_there_and_back "bob" "rob" two_channels = Return tt two_channels.
Proof.
  apply (rename_round_trip "bob" "rob" (new_user "bob")).
  - done.
  - reflexivity.
  - reflexivity.
  - reflexivity.
  - apply (bool_decide_unpack _). by vm_compute.
Defined.

(** C9 as stated fails in two ways.  The entry's nickname field comes
    back as the key [a], also when it stored something else before; and
    a [b] that is no key of the user table but sits in a member set is
    turned into [a] there. *)
Lemma rename_round_trip_fails :
  (is_Some (users mislabelled !! "bob") /\ users mislabelled !! "rob" = None /\
   users (state_of (rename_there_and_back "bob" "rob" mislabelled)) !! "bob"
     <> users mislabelled !! "bob") /\
  (is_Some (users stray_member !! "bob") /\ users stray_member !! "rob" = None /\
   channels (state_of (rename_there_and_back "bob" "rob" stray_member)) !! "#a"
     <> channels stray_member !! "#a").
Proof.
  repeat split; try (by vm_compute); by eexists; vm_compute.
Qed.

(** ** The reconnect delay *)

Lemma reconnect_delay_cases st :
  _reconnect_delay st =
  if backoff (cls st) then
    match scheduled (cls st) (_reconnect_attempts st) with
    | Some d => Return d st
    | None => Raise IndexError st
    end
  else Return 0%Z st.
Proof.
  unfold _reconnect_delay, backoff, scheduled. run.
  destruct (RECONNECT_ON_ERROR (cls st) && RECONNECT_DELAYED (cls st))%bool; [|done].
  destruct (length _ <? _)%nat.
  - by destruct (last _).
  - by destruct (_ !! _).
Qed.

(** Backoff switched off, or undelayed reconnection: the delay is 0. *)
Lemma reconnect_delay_off st :
  backoff (cls st) = false -> _reconnect_delay st = Return 0%Z st.
Proof. intros H. by rewrite reconnect_delay_cases, H. Qed.

(** An attempt count within the schedule: the entry at that index. *)
Lemma reconnect_delay_within st d :
  backoff (cls st) = true ->
  RECONNECT_DELAYS (cls st) !! _reconnect_attempts st = Some d ->
  _reconnect_delay st = Return d st.
Proof.
  intros H Hd. rewrite reconnect_delay_cases, H. unfold scheduled.
  apply lookup_lt_Some in Hd as Hlt.
  destruct (Nat.ltb_spec (length (RECONNECT_DELAYS (cls st)))
              (_reconnect_attempts st)); [lia|].
  by rewrite Hd.
Qed.

(** An attempt count greater than the length of a schedule that is not
    empty: the last entry. *)
Lemma reconnect_delay_beyond st d :
  backoff (cls st) = true ->
  (length (RECONNECT_DELAYS (cls st)) < _reconnect_attempts st)%nat ->
  last (RECONNECT_DELAYS (cls st)) = Some d ->
  _reconnect_delay st = Return d st.
Proof.
  intros H Hlt Hd. rewrite reconnect_delay_cases, H. unfold scheduled.
  destruct (Nat.ltb_spec (length (RECONNECT_DELAYS (cls st)))
              (_reconnect_attempts st)); [|lia].
  by rewrite Hd.
Qed.

(** C2.  With backoff on, an attempt count equal to the length of the
    schedule is the first index past the schedule, and
    [_reconnect_delay] does not return the last entry there: the
    comparison is strict, the schedule is indexed out of range, and
    [IndexError] is raised. *)
Theorem reconnect_delay_at_length st :
  backoff (cls st) = true ->
  _reconnect_attempts st = length (RECONNECT_DELAYS (cls st)) ->
  _reconnect_delay st = Raise IndexError st.
Proof.
  intros H Hn. rewrite reconnect_delay_cases, H. unfold scheduled.
  rewrite Hn, Nat.ltb_irrefl.
  by rewrite (lookup_ge_None_2 (RECONNECT_DELAYS (cls st)) _ (Nat.le_refl _)).
Qed.

Lemma reconnect_delay_at_length_witness :
  _reconnect_delay (set_reconnect_attempts 4 (online persistent_policy))
  = Raise IndexError (set_reconnect_attempts 4 (online persistent_policy)).
Proof. apply reconnect_delay_at_length; reflexivity. Defined.

(** ** Connecting and disconnecting *)

Arguments server_tag : simpl never.
Arguments _reconnect_delay : simpl never.

Lemma scheduled_nonneg pol n d :
  Forall (fun x => 0 <= x)%Z (RECONNECT_DELAYS pol) ->
  scheduled pol n = Some d -> (0 <= d)%Z.
Proof.
  intros H. unfold scheduled. rewrite last_lookup.
  destruct (_ <? _)%nat; intros Hd; by eapply Forall_lookup_1.
Qed.

Lemma server_tag_online st c :
  connection st = Some c -> conn_connected c = true ->
  truthy_str (conn_hostname c) = true -> is_Some (server_tag st).
Proof.
  intros Hc Hcc Hh. unfold server_tag. rewrite Hc, Hcc, Hh. simpl.
  repeat case_match; by eexists.
Qed.

Section SupervisorFacts.
Variable DEFAULT_PORT : Z.
Variable DEFAULT_ENCODING : string.

Local Abbreviation connect := (connect DEFAULT_PORT DEFAULT_ENCODING).
Local Abbreviation disconnect := (disconnect DEFAULT_PORT DEFAULT_ENCODING).
Local Abbreviation on_disconnect := (on_disconnect DEFAULT_PORT DEFAULT_ENCODING).
Local Abbreviation on_data_error := (on_data_error DEFAULT_PORT DEFAULT_ENCODING).

(** The argument check comes first and touches nothing. *)
Lemma connect_missing depth host port kw st :
  (negb (truthy_str host) || negb (truthy_int port))%bool = true ->
  connect (S depth) host port false kw st = Raise ValueError st.
Proof. intros H. simpl. by rewrite H. Qed.

(** Past the argument check, on a client that is not connected, the
    steps of [connect] raise nothing but [AttributeError] and
    [TypeError]. *)
Lemma connect_offline_no_value_error depth host port reconnect kw st st' :
  ((negb (truthy_str host) || negb (truthy_int port)) && negb reconnect)%bool = false ->
  connected st = false ->
  connect depth host port reconnect kw st <> Raise ValueError st'.
Proof.
  intros Hg Hc. destruct depth as [|d]; [done|].
  destruct st as [pol nn un rn hn chs us buf lg nk nw co en hq aj ra tr].
  unfold connected in Hc. simpl in *. rewrite Hg. run. simpl.
  unfold connected. simpl. rewrite Hc.
  destruct reconnect; simpl.
  - destruct co as [c|]; simpl; by destruct (server_tag _).
  - by destruct (server_tag _).
Qed.

Lemma on_disconnect_no_value_error depth expected st st' :
  Forall (fun x => 0 <= x)%Z (RECONNECT_DELAYS (cls st)) ->
  connected st = false ->
  on_disconnect depth expected st <> Raise ValueError st'.
Proof.
  intros HI Hc. destruct depth as [|d]; [done|].
  destruct st as [pol nn un rn hn chs us buf lg nk nw co en hq aj ra tr].
  simpl in *. run. destruct expected; simpl; [done|].
  destruct (RECONNECT_ON_ERROR pol && _)%bool; simpl; [|done].
  rewrite reconnect_delay_cases. simpl.
  assert (forall x tr', time_sleep x
            {| cls := pol; _nicknames := nn; username := un; realname := rn;
               hostname := hn; channels := chs; users := us;
               _receive_buffer := buf; logger := lg; nickname := nk;
               network := nw; connection := co; encoding := en;
               _has_quit := hq; _autojoin_channels := aj;
               _reconnect_attempts := S ra; trace := tr' |}
            = Raise ValueError st' -> (x < 0)%Z) as Hsleep.
  { intros x tr'. unfold time_sleep. destruct (Z.ltb_spec x 0); [done|].
    unfold modify. by simpl. }
  destruct (backoff pol).
  - destruct (scheduled pol ra) as [x|] eqn:Hx; [|done].
    apply (scheduled_nonneg _ _ _ HI) in Hx.
    destruct (0 <? x)%Z; simpl;
      (destruct (time_sleep x _) as [[] s|e s] eqn:Hs;
       [ apply connect_offline_no_value_error; [done|];
         revert Hs; unfold time_sleep; destruct (x <? 0)%Z; [done|];
         unfold modify; simpl; by intros [= <-]
       | intros [= -> ->]; apply Hsleep in Hs; lia ]).
  - simpl. unfold time_sleep. simpl. unfold modify. simpl.
    by apply connect_offline_no_value_error.
Qed.

Lemma disconnect_no_value_error depth st st' :
  Forall (fun x => 0 <= x)%Z (RECONNECT_DELAYS (cls st)) ->
  disconnect depth st <> Raise ValueError st'.
Proof.
  intros HI. destruct depth as [|d]; [done|].
  destruct st as [pol nn un rn hn chs us buf lg nk nw co en hq aj ra tr].
  simpl in *. run. simpl. destruct co as [c|]; [|done].
  destruct (conn_connected c); simpl; [|done].
  destruct (on_disconnect d hq _) as [[] s|e s] eqn:Hd; [done|].
  intros [= -> ->]. revert Hd. by apply on_disconnect_no_value_error.
Qed.
(** C5, as the code has it.  [connect] raises [ValueError] at its
    argument check when the host name or the port is unset (or empty,
    or zero) and this is not a reconnect, and then leaves the client
    as it was; with both given, or on a reconnect, it does not raise
    [ValueError] at all, as long as the reconnect schedule holds no
    negative delay (which [time.sleep] would refuse). *)
Theorem connect_argument_check depth host port reconnect kw st :
  Forall (fun x => 0 <= x)%Z (RECONNECT_DELAYS (cls st)) ->
  if ((negb (truthy_str host) || negb (truthy_int port)) && negb reconnect)%bool
  then connect (S depth) host port reconnect kw st = Raise ValueError st
  else forall st', connect (S depth) host port reconnect kw st <> Raise ValueError st'.
Proof.
  intros HI.
  destruct ((negb (truthy_str host) || negb (truthy_int port)) && negb reconnect)%bool
    eqn:Hg.
  - apply andb_prop in Hg as [Hg Hr]. apply negb_true_iff in Hr as ->.
    by apply connect_missing.
  - intros st'. destruct (connected st) eqn:Hc;
      [|by apply connect_offline_no_value_error].
    destruct st as [pol nn un rn hn chs us buf lg nk nw co en hq aj ra tr].
    unfold connected in Hc. simpl in *. rewrite Hg. run. simpl.
    unfold connected. simpl. rewrite Hc.
    match goal with
    | |- context [disconnect depth ?s] =>
        pose proof (fun s' => disconnect_no_value_error depth s s' HI) as Hd;
        destruct (disconnect depth s) as [[] s1|e s1]
    end.
    + destruct s1 as [pol1 nn1 un1 rn1 hn1 chs1 us1 buf1 lg1 nk1 nw1 co1 en1 hq1 aj1 ra1 tr1].
      destruct reconnect; simpl.
      * destruct co1 as [c1|]; simpl; by destruct (server_tag _).
      * by destruct (server_tag _).
    + intros [= -> ->]. by eapply Hd.
Qed.

(** One unexpected disconnect that the policy answers with a
    reconnect after [x] seconds. *)
Lemma unexpected_disconnect_reconnects depth st c x :
  _has_quit st = false ->
  may_reconnect (cls st) (_reconnect_attempts st) = true ->
  (if backoff (cls st) then scheduled (cls st) (_reconnect_attempts st)
   else Some 0%Z) = Some x ->
  (0 <= x)%Z ->
  connection st = Some c -> conn_connected c = true ->
  truthy_str (conn_hostname c) = true ->
  exists st',
    on_data_error (4 + depth) st = Return tt st' /\
    cls st' = cls st /\ _has_quit st' = false /\
    connection st' = Some (conn_connect c) /\
    _reconnect_attempts st' = S (_reconnect_attempts st) /\
    trace st' = (trace st ++
      [TransportDisconnect;
       (if (0 <? x)%Z
        then Log ERROR
               "Unexpected disconnect. Attempting to reconnect within %s seconds."
               [ArgInt x]
        else Log ERROR "Unexpected disconnect. Attempting to reconnect." []);
       Sleep x; TransportConnect; TransportOn "read"; TransportOn "error"])%list.
Proof.
  intros Hq Hm Hx Hx0 Hc Hcc Hh.
  destruct st as [pol nn un rn hn chs us buf lg nk nw co en hq aj ra tr].
  unfold may_reconnect in Hm. simpl in *. subst. run. simpl.
  rewrite Hcc. simpl. rewrite Hm. simpl.
  rewrite reconnect_delay_cases. simpl.
  destruct (backoff pol); [rewrite Hx|injection Hx as <-]; simpl.
  - unfold time_sleep. destruct (Z.ltb_spec x 0) as [?|_]; [lia|]. run.
    destruct (0 <? x)%Z; simpl;
      match goal with
      | |- context [server_tag ?s] =>
          destruct (server_tag_online s (conn_connect (conn_disconnect c))
                      eq_refl eq_refl Hh) as [tag ->]
      end; simpl; eexists; (split; [reflexivity|]); simpl;
      repeat split; by rewrite <- !app_assoc.
  - match goal with
    | |- context [server_tag ?s] =>
        destruct (server_tag_online s (conn_connect (conn_disconnect c))
                    eq_refl eq_refl Hh) as [tag ->]
    end; simpl; eexists; (split; [reflexivity|]); simpl;
    repeat split; by rewrite <- !app_assoc.
Qed.

(** One unexpected disconnect that the policy does not answer. *)
Lemma unexpected_disconnect_gives_up depth st c :
  _has_quit st = false ->
  may_reconnect (cls st) (_reconnect_attempts st) = false ->
  connection st = Some c -> conn_connected c = true ->
  exists st',
    on_data_error (3 + depth) st = Return tt st' /\
    cls st' = cls st /\ _has_quit st' = false /\
    connection st' = Some (conn_disconnect c) /\
    _reconnect_attempts st' = _reconnect_attempts st /\
    trace st' = (trace st ++
      [TransportDisconnect; Log ERROR "Unexpected disconnect. Giving up." []])%list.
Proof.
  intros Hq Hm Hc Hcc.
  destruct st as [pol nn un rn hn chs us buf lg nk nw co en hq aj ra tr].
  unfold may_reconnect in Hm. simpl in *. subst. run. simpl.
  rewrite Hcc. simpl. rewrite Hm. simpl.
  eexists; (split; [reflexivity|]); simpl.
  repeat split; by rewrite <- !app_assoc.
Qed.

(** C8.  A connected session of a class with at most 2 reconnect
    attempts and the schedule [0, 30], its attempt counter at 0 and
    its quit flag unset, meets three transport errors in a row.  The
    first two are answered by a reconnect each, after a delay of 0
    and of 30 seconds, computed from the counter before it is
    incremented; the third is answered by logging that the client
    gives up: there is no third reconnect, and the session ends
    disconnected. *)
Theorem three_unexpected_disconnects depth st c :
  cls st = quick_policy ->
  _reconnect_attempts st = 0%nat ->
  _has_quit st = false ->
  connection st = Some c -> conn_connected c = true ->
  truthy_str (conn_hostname c) = true ->
  exists st',
    (on_data_error (4 + depth) ;; on_data_error (4 + depth) ;;
     on_data_error (4 + depth)) st = Return tt st' /\
    trace st' = (trace st ++
      [TransportDisconnect;
       Log ERROR "Unexpected disconnect. Attempting to reconnect." [];
       Sleep 0; TransportConnect; TransportOn "read"; TransportOn "error";
       TransportDisconnect;
       Log ERROR
         "Unexpected disconnect. Attempting to reconnect within %s seconds."
         [ArgInt 30];
       Sleep 30; TransportConnect; TransportOn "read"; TransportOn "error";
       TransportDisconnect;
       Log ERROR "Unexpected disconnect. Giving up." []])%list /\
    connected st' = false /\
    _reconnect_attempts st' = 2%nat.
Proof.
  intros Hp Hn Hq Hc Hcc Hh.
  destruct (unexpected_disconnect_reconnects depth st c 0%Z)
    as (s1 & E1 & Hp1 & Hq1 & Hc1 & Hn1 & Ht1); try done.
  { by rewrite Hp, Hn. }
  { by rewrite Hp, Hn. }
  destruct (unexpected_disconnect_reconnects depth s1 (conn_connect c) 30%Z)
    as (s2 & E2 & Hp2 & Hq2 & Hc2 & Hn2 & Ht2); try done.
  { by rewrite Hp1, Hn1, Hp, Hn. }
  { by rewrite Hp1, Hn1, Hp, Hn. }
  destruct (unexpected_disconnect_gives_up (S depth) s2 (conn_connect (conn_connect c)))
    as (s3 & E3 & Hp3 & Hq3 & Hc3 & Hn3 & Ht3); try done.
  { by rewrite Hp2, Hn2, Hp1, Hn1, Hp, Hn. }
  exists s3. run. rewrite E1, E2. split; [exact E3|].
  split; [|split].
  - rewrite Ht3, Ht2, Ht1. by rewrite <- !app_assoc.
  - unfold connected. by rewrite Hc3.
  - by rewrite Hn3, Hn2, Hn1, Hn.
Qed.
End SupervisorFacts.

(** *** The supervisor on the example sessions *)

Lemma online_connection pol :
  connection (online pol)
  = Some {| conn_hostname := Some "irc.example.com"; conn_port := 6667;
            conn_source_address := None; conn_connected := true |}.
Proof. reflexivity. Qed.

Lemma connect_argument_check_witness :
  connect 6667 "utf-8" 4 None None false (default_kwargs "utf-8") alice
    = Raise ValueError alice /\
  forall st',
    connect 6667 "utf-8" 4 (Some "irc.example.com") (Some 6667%Z) false
      (default_kwargs "utf-8") alice <> Raise ValueError st'.
Proof.
  split.
  - apply (connect_argument_check 6667 "utf-8" 3 None None false
             (default_kwargs "utf-8") alice).
    simpl. repeat (constructor; [lia|]). constructor.
  - apply (connect_argument_check 6667 "utf-8" 3 (Some "irc.example.com")
             (Some 6667%Z) false (default_kwargs "utf-8") alice).
    simpl. repeat (constructor; [lia|]). constructor.
Defined.

(** C5 as stated fails: a host name without a port does not pass the
    check, although only one of the two is unset. *)
Lemma connect_host_without_port :
  connect 6667 "utf-8" 4 (Some "irc.example.com") None false
    (default_kwargs "utf-8") alice
  = Raise ValueError alice.
Proof. reflexivity. Qed.

(** The attempt count does reach the length of the schedule: a session
    of a class without a maximum reconnects after four transport errors
    in a row, and the fifth one leaves [on_data_error] with
    [IndexError]. *)
Example fifth_transport_error_raises :
  exists st4 st5,
    (on_data_error 6667 "utf-8" 4 ;; on_data_error 6667 "utf-8" 4 ;;
     on_data_error 6667 "utf-8" 4 ;; on_data_error 6667 "utf-8" 4)
      (online persistent_policy) = Return tt st4 /\
    _reconnect_attempts st4 = 4%nat /\
    on_data_error 6667 "utf-8" 4 st4 = Raise IndexError st5.
Proof.
  do 2 eexists. split; [by vm_compute|]. split; [reflexivity|]. by vm_compute.
Qed.

Lemma three_unexpected_disconnects_witness :
  exists st',
    (on_data_error 6667 "utf-8" 4 ;; on_data_error 6667 "utf-8" 4 ;;
     on_data_error 6667 "utf-8" 4) (online quick_policy) = Return tt st' /\
    trace st' = (trace (online quick_policy) ++
      [TransportDisconnect;
       Log ERROR "Unexpected disconnect. Attempting to reconnect." [];
       Sleep 0; TransportConnect; TransportOn "read"; TransportOn "error";
       TransportDisconnect;
       Log ERROR
         "Unexpected disconnect. Attempting to reconnect within %s seconds."
         [ArgInt 30];
       Sleep 30; TransportConnect; TransportOn "read"; TransportOn "error";
       TransportDisconnect;
       Log ERROR "Unexpected disconnect. Giving up." []])%list /\
    connected st' = false /\
    _reconnect_attempts st' = 2%nat.
Proof.
  apply (three_unexpected_disconnects 6667 "utf-8" 0 (online quick_policy)
           {| conn_hostname := Some "irc.example.com"; conn_port := 6667;
              conn_source_address := None; conn_connected := true |});
    reflexivity.
Defined.



(** ** The pool: fairness of [handle_message] *)

Section PoolFacts.
Variable session : Type.
Variable result : Type.
Variable session_has_message : session -> bool.
Variable session_poll_single : session -> result * session.

Local Abbreviation pool := (ClientPool session).
Local Abbreviation next_ready := (next_ready session session_has_message).
Local Abbreviation ready_at := (ready_at session session_has_message).
Local Abbreviation first_ready_from :=
  (first_ready_from session session_has_message).
Local Abbreviation handle_message :=
  (handle_message session result session_has_message session_poll_single).

(** The scan over the cycle stops at the first session with a message,
    counted from the position it starts at. *)
Lemma next_ready_first (p : pool) steps pos i :
  (pos < length (clients session p))%nat ->
  next_ready p steps pos = Some i ->
  exists k : nat,
    (k < steps)%nat /\
    i = ((pos + k) mod length (clients session p))%nat /\
    ready_at p i = true /\
    forall m : nat, (m < k)%nat ->
      ready_at p ((pos + m) mod length (clients session p))%nat = false.
Proof.
  revert pos. induction steps as [|steps IH]; intros pos Hpos; [done|].
  simpl. destruct (clients session p !! pos) as [c|] eqn:Ec; [|done].
  destruct (session_has_message c) eqn:Hc.
  - intros [= <-]. exists 0%nat. rewrite Nat.add_0_r.
    rewrite Nat.mod_small by done. unfold ready_at. rewrite Ec.
    repeat split; [lia|done|lia].
  - intros H. apply IH in H as (k & Hk & -> & Hr & Hm).
    2:{ unfold advance. apply Nat.mod_upper_bound. lia. }
    assert (forall x : nat,
              ((S pos mod length (clients session p) + x)
                 mod length (clients session p)
               = (pos + S x) mod length (clients session p))%nat) as Hx.
    { intros x. rewrite Nat.Div0.add_mod_idemp_l. f_equal. lia. }
    unfold advance in *. exists (S k). rewrite Hx in Hr. rewrite Hx.
    repeat split; [lia|done|].
    intros m Hlt. destruct m as [|m].
    + rewrite Nat.add_0_r, Nat.mod_small by done.
      unfold ready_at. by rewrite Ec.
    + rewrite <- Hx. apply Hm. lia.
Qed.

(** What a successful [handle_message] did. *)
Lemma handle_message_serviced (p : pool) i r p' :
  (client_cycle session p < length (clients session p))%nat ->
  handle_message p = Some (inr (i, r, p')) ->
  first_ready_from p (client_cycle session p) i /\
  client_cycle session p' = (S i mod length (clients session p))%nat /\
  length (clients session p') = length (clients session p).
Proof.
  intros Hpos. unfold handle_message.
  destruct (negb _); [done|].
  destruct (next_ready p _ _) as [i'|] eqn:En; [|done].
  destruct (clients session p !! i') as [c|] eqn:Ec; [|done].
  destruct (session_poll_single c) as [r0 c'].
  intros [= <- <- <-]. simpl.
  apply next_ready_first in En as (k & Hk & Hi & Hr & Hm); [|done].
  split; [by exists k|]. split; [done|]. by rewrite length_insert.
Qed.

(** A scan that finds nothing has looked at every position it passed. *)
Lemma next_ready_none (p : pool) steps pos :
  (pos < length (clients session p))%nat ->
  next_ready p steps pos = None ->
  forall k : nat, (k < steps)%nat ->
    ready_at p ((pos + k) mod length (clients session p))%nat = false.
Proof.
  revert pos. induction steps as [|steps IH]; intros pos Hpos; [intros _ k; lia|].
  simpl. destruct (clients session p !! pos) as [c|] eqn:Ec.
  2:{ apply lookup_ge_None in Ec. lia. }
  destruct (session_has_message c) eqn:Hc; [done|].
  intros H k Hk. destruct k as [|k].
  - rewrite Nat.add_0_r, Nat.mod_small by done. unfold ready_at. by rewrite Ec.
  - unfold advance in H.
    replace ((pos + S k) mod length (clients session p))%nat
      with ((S pos mod length (clients session p) + k)
              mod length (clients session p))%nat.
    + apply IH; [apply Nat.mod_upper_bound; lia|done|lia].
    + rewrite Nat.Div0.add_mod_idemp_l. f_equal. lia.
Qed.

Lemma existsb_ready (p : pool) :
  has_message session session_has_message p = true <->
  exists i, ready_at p i = true.
Proof.
  unfold has_message, ready_at. rewrite existsb_exists. split.
  - intros (c & Hin & Hc). apply list_elem_of_In in Hin.
    apply list_elem_of_lookup_1 in Hin as [i Hi]. exists i. by rewrite Hi.
  - intros [i Hi]. destruct (clients session p !! i) as [c|] eqn:E; [|done].
    exists c. split; [|done]. apply list_elem_of_In.
    by eapply list_elem_of_lookup_2.
Qed.

(** With a message pending somewhere, the scan over one round of the
    cycle finds a session, wherever the cursor stands. *)
Lemma next_ready_finds (p : pool) :
  (client_cycle session p < length (clients session p))%nat ->
  has_message session session_has_message p = true ->
  exists i c,
    next_ready p (length (clients session p)) (client_cycle session p) = Some i /\
    clients session p !! i = Some c.
Proof.
  intros Hpos Hh.
  destruct (next_ready p _ _) as [i|] eqn:En.
  - pose proof En as Hf.
    apply next_ready_first in Hf as (k & _ & _ & Hr & _); [|done].
    unfold ready_at in Hr.
    destruct (clients session p !! i) as [c|] eqn:Ec; [|done]. by exists i, c.
  - apply existsb_ready in Hh as [j Hj].
    assert (j < length (clients session p))%nat as Hlt.
    { unfold ready_at in Hj.
      destruct (clients session p !! j) eqn:E; [|done].
      by eapply lookup_lt_Some. }
    pose proof (next_ready_none p _ _ Hpos En
                  ((j + length (clients session p) - client_cycle session p)
                     mod length (clients session p))%nat) as Hn.
    rewrite Nat.Div0.add_mod_idemp_r in Hn.
    replace (client_cycle session p
             + (j + length (clients session p) - client_cycle session p))%nat
      with (j + 1 * length (clients session p))%nat in Hn by lia.
    rewrite Nat.Div0.mod_add, (Nat.mod_small j) in Hn by done.
    rewrite Hn in Hj; [done|]. apply Nat.mod_upper_bound. lia.
Qed.

(** A pool in which a message is pending: [handle_message] services a
    session. *)
Lemma handle_message_services (p : pool) :
  (client_cycle session p < length (clients session p))%nat ->
  has_message session session_has_message p = true ->
  exists i r p', handle_message p = Some (inr (i, r, p')).
Proof.
  intros Hpos Hh.
  destruct (next_ready_finds p Hpos Hh) as (i & c & En & Ec).
  unfold handle_message. rewrite Hh, En, Ec. cbn [negb].
  destruct (session_poll_single c) as [r c']. by eexists _, _, _.
Qed.

(** C7.  With the membership of the pool unchanged, a call of
    [handle_message] on a pool in which a message is pending services
    the first session with a message from the cursor on, [i], and
    leaves the sessions as many as they were; when a message is pending
    afterwards, the next call services the first session with a message
    in the cyclic order that starts right after [i], going round to the
    head of the list past its end, not at the start of the set.  With
    the sessions A, B, C in cyclic order, of which A and C have a message
    and B has none, the two calls service A and then C, whatever
    consuming A's message does to A; and when A has a message left, a
    third call comes round to A. *)
Theorem pool_resumes_after_last_serviced :
  (forall p : pool,
     (client_cycle session p < length (clients session p))%nat ->
     has_message session session_has_message p = true ->
     exists i r p',
       handle_message p = Some (inr (i, r, p')) /\
       first_ready_from p (client_cycle session p) i /\
       length (clients session p') = length (clients session p) /\
       (has_message session session_has_message p' = true ->
        exists j r' p'',
          handle_message p' = Some (inr (j, r', p'')) /\
          first_ready_from p' (S i) j)) /\
  (forall A B C : session,
     session_has_message A = true ->
     session_has_message B = false ->
     session_has_message C = true ->
     exists r1 p1 r2 p2,
       handle_message (new_pool session [A; B; C]) = Some (inr (0%nat, r1, p1)) /\
       handle_message p1 = Some (inr (2%nat, r2, p2)) /\
       (session_has_message (session_poll_single A).2 = true ->
        exists r3 p3, handle_message p2 = Some (inr (0%nat, r3, p3)))).
Proof.
  split.
  - intros p Hpos Hh.
    destruct (handle_message_services p Hpos Hh) as (i & r & p' & H1).
    exists i, r, p'. split; [done|].
    apply handle_message_serviced in H1 as (Hi & Hc & Hl); [|done].
    split; [done|]. split; [done|]. intros Hh'.
    assert (client_cycle session p' < length (clients session p'))%nat as Hpos'.
    { rewrite Hc, Hl. apply Nat.mod_upper_bound. lia. }
    destruct (handle_message_services p' Hpos' Hh') as (j & r' & p'' & H2).
    exists j, r', p''. split; [done|].
    apply handle_message_serviced in H2 as ((k & Hk & Hj & Hr & Hm) & _); [|done].
    rewrite Hc, <- Hl in Hj, Hm.
    exists k. split; [done|].
    split; [by rewrite Hj, Nat.Div0.add_mod_idemp_l|].
    split; [done|]. intros m Hlt.
    rewrite <- (Hm m Hlt). by rewrite Nat.Div0.add_mod_idemp_l.
  - intros A B C HA HB HC.
    destruct (session_poll_single A) as [r1 A'] eqn:EA.
    destruct (session_poll_single C) as [r2 C'] eqn:EC.
    exists r1, {| clients := [A'; B; C]; client_cycle := 1 |},
           r2, {| clients := [A'; B; C']; client_cycle := 0 |}.
    unfold handle_message, has_message. simpl.
    rewrite HA, HB, HC, orb_true_r. simpl. rewrite EA.
    split; [reflexivity|]. rewrite orb_true_r, EC.
    split; [reflexivity|]. intros HA'. rewrite HA'. simpl.
    destruct (session_poll_single A') as [r3 A'']. by eexists _, _.
Qed.
End PoolFacts.

Lemma pool_resumes_after_last_serviced_witness :
  (exists i r p',
     handle_message nat nat counter_has_message counter_poll_single
       {| clients := [0; 3; 0]%nat; client_cycle := 2 |}
     = Some (inr (i, r, p')) /\
     first_ready_from nat counter_has_message
       {| clients := [0; 3; 0]%nat; client_cycle := 2 |} 2 i /\
     length (clients nat p') = 3%nat /\
     (has_message nat counter_has_message p' = true ->
      exists j r' p'',
        handle_message nat nat counter_has_message counter_poll_single p'
        = Some (inr (j, r', p'')) /\
        first_ready_from nat counter_has_message p' (S i) j)) /\
  (exists r1 p1 r2 p2 r3 p3,
     handle_message nat nat counter_has_message counter_poll_single
       (new_pool nat [2; 0; 1]%nat) = Some (inr (0%nat, r1, p1)) /\
     handle_message nat nat counter_has_message counter_poll_single p1
     = Some (inr (2%nat, r2, p2)) /\
     handle_message nat nat counter_has_message counter_poll_single p2
     = Some (inr (0%nat, r3, p3))).
Proof.
  split.
  - apply (proj1 (pool_resumes_after_last_serviced nat nat counter_has_message
                    counter_poll_single)
             {| clients := [0; 3; 0]%nat; client_cycle := 2 |});
      [simpl; lia|reflexivity].
  - destruct (proj2 (pool_resumes_after_last_serviced nat nat counter_has_message
                       counter_poll_single) 2%nat 0%nat 1%nat)
      as (r1 & p1 & r2 & p2 & H1 & H2 & H3); [reflexivity..|].
    destruct (H3 eq_refl) as (r3 & p3 & H4).
    by exists r1, p1, r2, p2, r3, p3.
Defined.

(** ** The dispatch loop: handler faults *)

Lemma buffer_emit ev st : _receive_buffer (emit ev st) = _receive_buffer st.
Proof. by destruct st. Qed.

Lemma buffer_set_receive_buffer v st : _receive_buffer (set_receive_buffer v st) = v.
Proof. by destruct st. Qed.

Section DispatchFacts.
Variable hooks : gmap string handler.
Variable has_complete_message : string -> bool.
Variable parse_one : string -> message * string.

Local Abbreviation handler_of := (getattr hooks).
Local Abbreviation resolved := (resolve hooks).
Local Abbreviation route := (on_raw hooks).
Local Abbreviation loop :=
  (dispatch_loop hooks has_complete_message parse_one).
Local Abbreviation feed := (on_data hooks has_complete_message parse_one).

(** The name [on_raw] resolves always has a handler: the fallback
    [on_unknown] exists in the base class. *)
Lemma getattr_resolve msg : is_Some (handler_of (resolved msg)).
Proof.
  unfold resolve. case_bool_decide as H; [done|].
  unfold getattr. destruct (hooks !! "on_unknown"); by eexists.
Qed.

Lemma announce_returns msg st :
  announce msg st = Return tt (state_of (announce msg st)).
Proof. unfold announce. run. by destruct (_valid msg). Qed.

Lemma buffer_announce msg st :
  _receive_buffer (state_of (announce msg st)) = _receive_buffer st.
Proof.
  unfold announce. run. destruct (_valid msg); simpl;
    by rewrite ?buffer_emit.
Qed.

(** [on_raw], by the outcome of the handler it calls. *)
Lemma on_raw_cases msg st h :
  handler_of (resolved msg) = Some h ->
  route msg st =
  match h msg (state_of (announce msg st)) with
  | Return _ s => Return tt s
  | Raise _ s =>
      Return tt (emit (Log EXCEPTION "Failed to execute %s handler."
                         [ArgStr (resolved msg)]) s)
  end.
Proof.
  intros Hh.
  transitivity
    (match announce msg st with
     | Return _ st' =>
         try_except
           (match handler_of (resolved msg) with
            | Some h' => h' msg
            | None => raise AttributeError
            end)
           (fun _ => modify (emit (Log EXCEPTION "Failed to execute %s handler."
                                     [ArgStr (resolved msg)]))) st'
     | Raise e s => Raise e s
     end); [reflexivity|].
  rewrite announce_returns, Hh. unfold try_except.
  by destruct (h msg _) as [[] ?|? ?].
Qed.

(** No exception leaves [on_raw]. *)
Lemma on_raw_returns msg st : exists st', route msg st = Return tt st'.
Proof.
  destruct (getattr_resolve msg) as [h Hh]. rewrite (on_raw_cases _ _ _ Hh).
  destruct (h msg _); by eexists.
Qed.

Lemma on_raw_keeps_buffer msg st :
  hooks_keep_buffer hooks ->
  _receive_buffer (state_of (route msg st)) = _receive_buffer st.
Proof.
  intros Hk. destruct (getattr_resolve msg) as [h Hh].
  rewrite (on_raw_cases _ _ _ Hh).
  assert (_receive_buffer (state_of (h msg (state_of (announce msg st))))
          = _receive_buffer st) as Hb.
  { rewrite <- (buffer_announce msg st). revert Hh.
    unfold getattr.
    destruct (hooks !! resolved msg) as [h'|] eqn:E.
    - intros [= <-]. by eapply Hk.
    - destruct (String.eqb _ _); [|done]. intros [= <-].
      unfold on_unknown. run. simpl. by rewrite buffer_emit. }
  destruct (h msg _); simpl in *; by rewrite ?buffer_emit.
Qed.

(** One turn of the loop on a buffer that holds a message. *)
Lemma dispatch_loop_step fuel st msg rest :
  has_complete_message (_receive_buffer st) = true ->
  parse_one (_receive_buffer st) = (msg, rest) ->
  loop (S fuel) st
  = loop fuel (state_of (route msg (set_receive_buffer rest st))).
Proof.
  intros Hh Hp. simpl. unfold _has_message, _parse_message. run.
  rewrite Hh, Hp. simpl.
  by destruct (on_raw_returns msg (set_receive_buffer rest st)) as [s ->].
Qed.

Lemma dispatch_loop_done fuel st :
  has_complete_message (_receive_buffer st) = false ->
  loop fuel st = Some (Return tt st).
Proof.
  intros Hh. destruct fuel; simpl; unfold _has_message; run; by rewrite Hh.
Qed.

(** The loop drains the buffer: with hooks that leave the buffer alone
    and a codec that makes progress, as many turns as the buffer is
    long end the loop, without an exception. *)
Lemma dispatch_loop_drains fuel st :
  hooks_keep_buffer hooks ->
  codec_progress has_complete_message parse_one ->
  (String.length (_receive_buffer st) <= fuel)%nat ->
  exists st',
    loop fuel st = Some (Return tt st') /\
    has_complete_message (_receive_buffer st') = false.
Proof.
  intros Hk Hc. revert st. induction fuel as [|fuel IH]; intros st Hlen.
  - destruct (has_complete_message (_receive_buffer st)) eqn:Hh.
    + apply Hc in Hh. lia.
    + exists st. by rewrite dispatch_loop_done.
  - destruct (has_complete_message (_receive_buffer st)) eqn:Hh.
    + destruct (parse_one (_receive_buffer st)) as [msg rest] eqn:Hp.
      rewrite (dispatch_loop_step _ _ _ _ Hh Hp). apply IH.
      rewrite on_raw_keeps_buffer by done.
      rewrite buffer_set_receive_buffer.
      apply Hc in Hh. rewrite Hp in Hh. simpl in Hh. lia.
    + exists st. by rewrite dispatch_loop_done.
Qed.

(** C6, as the code has it.  Data arrives and the buffer then holds a
    message whose resolved handler raises.  [on_raw] catches the
    exception, logs it under the handler's name and returns, whatever
    the handler is.  A handler runs on the client and can write the
    receive buffer: when the faulty handler left the buffer as it found
    it and the buffer holds a second message, the loop goes on: the
    second message is framed out of the buffer and routed through
    [on_raw] in the state the faulty handler left, and the loop
    continues from there.  With hooks that all leave the buffer alone
    and a codec that makes progress, the whole call ends without an
    exception once the buffer holds no complete message. *)
Theorem handler_fault_does_not_stop_dispatch
    fuel data st msg1 rest1 msg2 rest2 h e s :
  has_complete_message (_receive_buffer st ++ data) = true ->
  parse_one (_receive_buffer st ++ data) = (msg1, rest1) ->
  handler_of (resolved msg1) = Some h ->
  h msg1 (state_of (announce msg1 (set_receive_buffer rest1 st))) = Raise e s ->
  let caught := emit (Log EXCEPTION "Failed to execute %s handler."
                        [ArgStr (resolved msg1)]) s in
  route msg1 (set_receive_buffer rest1 st) = Return tt caught /\
  (_receive_buffer s = rest1 ->
   has_complete_message rest1 = true ->
   parse_one rest1 = (msg2, rest2) ->
   exists st2,
     route msg2 (set_receive_buffer rest2 caught) = Return tt st2 /\
     feed (S (S fuel)) data st = loop fuel st2) /\
  (hooks_keep_buffer hooks ->
   codec_progress has_complete_message parse_one ->
   exists st',
     feed (String.length (_receive_buffer st ++ data)) data st
       = Some (Return tt st') /\
     has_complete_message (_receive_buffer st') = false).
Proof.
  intros Hh1 Hp1 Hh Hraise caught.
  assert (route msg1 (set_receive_buffer rest1 st) = Return tt caught) as H1.
  { rewrite (on_raw_cases _ _ _ Hh). by rewrite Hraise. }
  split; [done|]. split.
  - intros Hs Hh2 Hp2.
    assert (_receive_buffer caught = rest1) as Hb
      by (unfold caught; by rewrite buffer_emit).
    destruct (on_raw_returns msg2 (set_receive_buffer rest2 caught)) as [st2 H2].
    exists st2. split; [done|]. unfold on_data.
    rewrite (dispatch_loop_step (S fuel) _ msg1 rest1);
      rewrite ?buffer_set_receive_buffer; try done.
    replace (set_receive_buffer rest1
               (set_receive_buffer (_receive_buffer st ++ data) st))
      with (set_receive_buffer rest1 st) by (by destruct st).
    rewrite H1. change (state_of (Return tt caught)) with caught.
    rewrite (dispatch_loop_step fuel caught msg2 rest2) by (by rewrite Hb).
    by rewrite H2.
  - intros Hk Hc. unfold on_data. apply dispatch_loop_drains; try done.
    by rewrite buffer_set_receive_buffer.
Qed.
End DispatchFacts.

(** The codec of the examples takes at least the newline out of the
    buffer. *)
Lemma line_codec_progress : codec_progress line_has_message line_parse.
Proof.
  intros buffer. unfold line_has_message, line_parse.
  induction buffer as [|c rest IH]; [done|].
  cbn [char_in split_line]. rewrite Ascii.eqb_sym.
  destruct (Ascii.eqb c "010"%char); [intros _; cbn; lia|].
  intros H. specialize (IH H). destruct (split_line rest) as [line tail].
  cbn [fst snd String.length] in *. lia.
Qed.

Lemma example_hooks_keep_buffer : hooks_keep_buffer example_hooks.
Proof.
  intros name h msg st Hl. unfold example_hooks in Hl.
  apply lookup_insert_Some in Hl as [[_ <-]|[_ Hl]]; [done|].
  apply lookup_insert_Some in Hl as [[_ <-]|[_ Hl]]; [|done].
  by destruct st.
Qed.

Lemma handler_fault_does_not_stop_dispatch_witness :
  (exists st',
     on_data example_hooks line_has_message line_parse 2
       ("PRIVMSG" ++ newline ++ "PING" ++ newline) alice = Some (Return tt st') /\
     trace st' =
       [Log DEBUG "<< [%s] %s %s" [ArgStr ""; ArgStr "PRIVMSG"; ArgList []];
        Log EXCEPTION "Failed to execute %s handler." [ArgStr "on_raw_privmsg"];
        Log DEBUG "<< [%s] %s %s" [ArgStr ""; ArgStr "PING"; ArgList []];
        TransportSend "PONG"]) /\
  (exists st',
     on_data example_hooks line_has_message line_parse 13
       ("PRIVMSG" ++ newline ++ "PING" ++ newline) alice = Some (Return tt st') /\
     line_has_message (_receive_buffer st') = false).
Proof.
  destruct (handler_fault_does_not_stop_dispatch example_hooks
              line_has_message line_parse 0
              ("PRIVMSG" ++ newline ++ "PING" ++ newline) alice
              {| source := None; command := inr "PRIVMSG"; params := [];
                 _valid := true; _raw := "PRIVMSG" |}
              ("PING" ++ newline)
              {| source := None; command := inr "PING"; params := [];
                 _valid := true; _raw := "PING" |}
              ""
              (fun _ => raise (OtherError "RuntimeError"))
              (OtherError "RuntimeError")
              (state_of (announce
                 {| source := None; command := inr "PRIVMSG"; params := [];
                    _valid := true; _raw := "PRIVMSG" |}
                 (set_receive_buffer ("PING" ++ newline) alice))))
    as (_ & Hnext & Hdrain).
  - reflexivity.
  - reflexivity.
  - reflexivity.
  - reflexivity.
  - split.
    + destruct Hnext as (st2 & H2 & Hfeed); [reflexivity..|].
      exists st2. split.
      * rewrite Hfeed. simpl. unfold _has_message. simpl.
        vm_compute in H2. injection H2 as <-. reflexivity.
      * vm_compute in H2. injection H2 as <-. reflexivity.
    + exact (Hdrain example_hooks_keep_buffer line_codec_progress).
Defined.

(** C6 as stated fails: not for every handler.  The PRIVMSG hook of
    [resetting_hooks] empties the receive buffer and raises.  [on_raw]
    catches the exception, but the PING that was buffered behind the
    PRIVMSG is gone: the call ends with the buffer empty, PING was never
    routed and no PONG was sent. *)
Lemma faulty_hook_drops_next_message :
  line_has_message ("PRIVMSG" ++ newline ++ "PING" ++ newline) = true /\
  line_parse ("PRIVMSG" ++ newline ++ "PING" ++ newline)
  = ({| source := None; command := inr "PRIVMSG"; params := [];
        _valid := true; _raw := "PRIVMSG" |}, "PING" ++ newline) /\
  line_has_message ("PING" ++ newline) = true /\
  exists st',
    on_data resetting_hooks line_has_message line_parse 2
      ("PRIVMSG" ++ newline ++ "PING" ++ newline) alice = Some (Return tt st') /\
    _receive_buffer st' = "" /\
    trace st' =
      [Log DEBUG "<< [%s] %s %s" [ArgStr ""; ArgStr "PRIVMSG"; ArgList []];
       Log EXCEPTION "Failed to execute %s handler." [ArgStr "on_raw_privmsg"]].
Proof.
  split; [reflexivity|]. split; [reflexivity|]. split; [reflexivity|].
  eexists. split; [by vm_compute|]. split; reflexivity.
Qed.

(** * Further properties of the registry *)

(** ** Destroying a user *)

Lemma in_any_channel_true nick chans :
  in_any_channel nick chans = true <->
  exists c ch, chans !! c = Some ch /\ nick ∈ ch_users ch.
Proof.
  unfold in_any_channel. rewrite bool_decide_eq_true. unfold map_Exists.
  split; intros (c & ch & H); by exists c, ch.
Qed.

(** [_destroy_user] without a channel, for a known nickname: the entry
    is deleted and the nickname leaves every member set; no other entry
    and no other membership changes. *)
Theorem destroy_user_everywhere nick chan st :
  truthy_str chan = false ->
  is_Some (users st !! nick) ->
  exists st',
    _destroy_user nick chan st = Return tt st' /\
    users st' = delete nick (users st) /\
    (forall c, ch_users <$> channels st' !! c
               = (fun ch => ch_users ch ∖ {[nick]}) <$> channels st !! c) /\
    st' = set_users (users st') (set_channels (channels st') st).
Proof.
  intros Hc [u Hu]. unfold _destroy_user, delitem_user. run. rewrite Hc. simpl.
  autorewrite with proj. rewrite Hu. simpl.
  eexists. split; [reflexivity|]. autorewrite with proj.
  split; [done|]. split.
  - intros c. rewrite lookup_fmap. by destruct (channels st !! c).
  - by destruct st.
Qed.

Lemma destroy_user_everywhere_witness :
  exists st',
    _destroy_user "bob" None two_channels = Return tt st' /\
    users st' = delete "bob" (users two_channels) /\
    (forall c, ch_users <$> channels st' !! c
               = (fun ch => ch_users ch ∖ {["bob"]}) <$> channels two_channels !! c) /\
    st' = set_users (users st') (set_channels (channels st') two_channels).
Proof.
  apply destroy_user_everywhere; [reflexivity|]. by eexists.
Defined.

(** [_destroy_user] with a channel, for a known nickname: the nickname
    leaves the member set of that channel and of no other; the entry is
    kept exactly when the nickname is still a member of another
    channel. *)
Theorem destroy_user_in_channel nick c ch st :
  c <> "" ->
  channels st !! c = Some ch ->
  is_Some (users st !! nick) ->
  exists st',
    _destroy_user nick (Some c) st = Return tt st' /\
    channels st' = <[c := discard nick ch]> (channels st) /\
    (forall other, other <> nick -> users st' !! other = users st !! other) /\
    (is_Some (users st' !! nick) <->
     exists c' ch', c' <> c /\ channels st !! c' = Some ch' /\
                    nick ∈ ch_users ch').
Proof.
  intros Hne Hc [u Hu].
  assert (truthy_str (Some c) = true) as Ht.
  { simpl. apply negb_true_iff. by apply String.eqb_neq. }
  assert (alter (discard nick) c (channels st) = <[c := discard nick ch]> (channels st))
    as Halter.
  { apply map_eq. intros k. destruct (decide (k = c)) as [->|Hk].
    - by rewrite lookup_alter_eq, lookup_insert_eq, Hc.
    - by rewrite lookup_alter_ne, lookup_insert_ne. }
  assert (in_any_channel nick (<[c := discard nick ch]> (channels st)) = true <->
          exists c' ch', c' <> c /\ channels st !! c' = Some ch' /\
                         nick ∈ ch_users ch') as Hany.
  { rewrite in_any_channel_true. split.
    - intros (c' & ch' & Hl & Hin). destruct (decide (c' = c)) as [->|Hk].
      + rewrite lookup_insert_eq in Hl. injection Hl as <-.
        unfold discard in Hin. simpl in Hin. set_unfold. tauto.
      + rewrite lookup_insert_ne in Hl by done. by exists c', ch'.
    - intros (c' & ch' & Hk & Hl & Hin). exists c', ch'.
      by rewrite lookup_insert_ne. }
  unfold _destroy_user, getitem_channel, delitem_user. run. rewrite Ht. simpl.
  rewrite Hc. simpl. autorewrite with proj. rewrite Halter.
  destruct (in_any_channel nick _) eqn:Hin; simpl.
  - eexists. split; [reflexivity|]. autorewrite with proj.
    repeat split; try done. intros _. by apply Hany.
  - autorewrite with proj. rewrite Hu. simpl.
    eexists. split; [reflexivity|]. autorewrite with proj.
    split; [done|]. split.
    + intros other Ho. by rewrite lookup_delete_ne.
    + rewrite lookup_delete_eq. split; [by intros [? ?]|].
      intros H. apply Hany in H. congruence.
Qed.

Lemma destroy_user_in_channel_witness :
  exists st',
    _destroy_user "bob" (Some "#a") two_channels = Return tt st' /\
    channels st' = <["#a" := discard "bob" {| ch_users := {["bob"; "carol"]} |}]>
                     (channels two_channels) /\
    (forall other, other <> "bob" ->
       users st' !! other = users two_channels !! other) /\
    (is_Some (users st' !! "bob") <->
     exists c' ch', c' <> "#a" /\ channels two_channels !! c' = Some ch' /\
                    "bob" ∈ ch_users ch').
Proof.
  apply destroy_user_in_channel; [done|reflexivity|by eexists].
Defined.

(** How [_destroy_user] fails.  A channel that is not in the registry
    raises [KeyError] and nothing has changed, whether the nickname is
    known or not.  A nickname that is not in the user table, destroyed
    without a channel, raises [KeyError] after it has left every member
    set.  A nickname that is not in the user table, destroyed in a
    channel of the registry, raises [KeyError] after it has left the
    member set of that channel, when no other channel has it as a
    member. *)
Theorem destroy_user_key_errors nick c st :
  (c <> "" -> channels st !! c = None ->
   _destroy_user nick (Some c) st = Raise KeyError st) /\
  (forall chan, truthy_str chan = false -> users st !! nick = None ->
   _destroy_user nick chan st
   = Raise KeyError (set_channels (discard nick <$> channels st) st)) /\
  (forall ch, c <> "" -> channels st !! c = Some ch -> users st !! nick = None ->
   (forall c' ch', c' <> c -> channels st !! c' = Some ch' ->
                   nick ∉ ch_users ch') ->
   _destroy_user nick (Some c) st
   = Raise KeyError
       (set_channels (<[c := discard nick ch]> (channels st)) st)).
Proof.
  assert (c <> "" -> truthy_str (Some c) = true) as Ht.
  { intros Hne. simpl. apply negb_true_iff. by apply String.eqb_neq. }
  split; [|split].
  - intros Hne Hc. unfold _destroy_user, getitem_channel. run.
    rewrite (Ht Hne). simpl. by rewrite Hc.
  - intros chan Hf Hu. unfold _destroy_user, delitem_user. run.
    rewrite Hf. simpl. autorewrite with proj. by rewrite Hu.
  - intros ch Hne Hc Hu Hother.
    assert (alter (discard nick) c (channels st)
            = <[c := discard nick ch]> (channels st)) as Halter.
    { apply map_eq. intros k. destruct (decide (k = c)) as [->|Hk].
      - by rewrite lookup_alter_eq, lookup_insert_eq, Hc.
      - by rewrite lookup_alter_ne, lookup_insert_ne. }
    assert (in_any_channel nick (<[c := discard nick ch]> (channels st)) = false)
      as Hany.
    { apply not_true_is_false. rewrite in_any_channel_true.
      intros (c' & ch' & Hl & Hin). destruct (decide (c' = c)) as [->|Hk].
      - rewrite lookup_insert_eq in Hl. injection Hl as <-.
        unfold discard in Hin. simpl in Hin. set_unfold. tauto.
      - rewrite lookup_insert_ne in Hl by done. by eapply Hother. }
    unfold _destroy_user, getitem_channel, delitem_user. run.
    rewrite (Ht Hne). simpl. rewrite Hc. simpl. autorewrite with proj.
    rewrite Halter, Hany. simpl. autorewrite with proj. by rewrite Hu.
Qed.

Lemma destroy_user_key_errors_witness :
  _destroy_user "bob" (Some "#c") two_channels = Raise KeyError two_channels /\
  _destroy_user "dave" None two_channels
  = Raise KeyError
      (set_channels (discard "dave" <$> channels two_channels) two_channels) /\
  _destroy_user "dave" (Some "#b") two_channels
  = Raise KeyError
      (set_channels
         (<["#b" := discard "dave" {| ch_users := {["bob"]} |}]>
            (channels two_channels)) two_channels).
Proof.
  split; [|split].
  - apply (proj1 (destroy_user_key_errors "bob" "#c" two_channels));
      [done|reflexivity].
  - apply (proj1 (proj2 (destroy_user_key_errors "dave" "#c" two_channels)));
      reflexivity.
  - apply (proj2 (proj2 (destroy_user_key_errors "dave" "#b" two_channels)));
      [done|reflexivity|reflexivity|].
    intros c' ch' Hne Hl. unfold two_channels in Hl. simpl in Hl.
    apply lookup_insert_Some in Hl as [[<- <-]|[_ Hl]].
    + simpl. set_unfold. intros [H|H]; discriminate H.
    + apply lookup_insert_Some in Hl as [[<- _]|[_ Hl]]; [done|done].
Defined.

(** ** References from member sets to the user table *)

Lemma no_dangling_alt st :
  no_dangling st <->
  forall c ch m, channels st !! c = Some ch -> m ∈ ch_users ch ->
                 is_Some (users st !! m).
Proof.
  unfold no_dangling, map_Forall. split.
  - intros H c ch m Hc Hm. apply elem_of_dom. by eapply H.
  - intros H c ch Hc m Hm. apply elem_of_dom. by eapply H.
Qed.

Lemma destroy_user_no_dangling nick chan st :
  no_dangling st -> no_dangling (state_of (_destroy_user nick chan st)).
Proof.
  rewrite !no_dangling_alt. intros H.
  unfold _destroy_user, getitem_channel, delitem_user. run.
  destruct (truthy_str chan); simpl.
  - destruct (channels st !! default "" chan) as [ch0|] eqn:E0; simpl; [|done].
    autorewrite with proj.
    assert (forall c ch m,
              alter (discard nick) (default "" chan) (channels st) !! c = Some ch ->
              m ∈ ch_users ch -> is_Some (users st !! m)) as Hsub.
    { intros c ch m. rewrite lookup_alter.
      destruct (decide (default "" chan = c)) as [<-|Hk]; [|by apply H].
      rewrite E0. simpl. intros [= <-] Hm. apply (H _ _ _ E0).
      unfold discard in Hm. simpl in Hm. set_unfold. tauto. }
    destruct (in_any_channel nick _) eqn:Hin; simpl.
    + by autorewrite with proj.
    + autorewrite with proj.
      destruct (users st !! nick) eqn:Eu; simpl; autorewrite with proj; [|done].
      intros c ch m Hc Hm. destruct (decide (m = nick)) as [->|Hne].
      * assert (in_any_channel nick
                  (alter (discard nick) (default "" chan) (channels st)) = true)
          as Ht by (apply in_any_channel_true; eauto).
        congruence.
      * rewrite lookup_delete_ne by done. by eapply Hsub.
  - autorewrite with proj.
    assert (forall c ch m,
              (discard nick <$> channels st) !! c = Some ch ->
              m ∈ ch_users ch -> m <> nick /\ is_Some (users st !! m)) as Hsub.
    { intros c ch m. rewrite lookup_fmap.
      destruct (channels st !! c) as [ch1|] eqn:E1; [|done].
      simpl. intros [= <-] Hm. unfold discard in Hm. simpl in Hm.
      set_unfold. split; [tauto|]. apply (H _ _ _ E1). tauto. }
    destruct (users st !! nick) eqn:Eu; simpl; autorewrite with proj.
    + intros c ch m Hc Hm. destruct (Hsub _ _ _ Hc Hm) as [Hne Hs].
      by rewrite lookup_delete_ne.
    + intros c ch m Hc Hm. by destruct (Hsub _ _ _ Hc Hm).
Qed.

Lemma rename_user_no_dangling old new st :
  old <> new -> no_dangling st ->
  no_dangling (state_of (_rename_user old new st)).
Proof.
  rewrite !no_dangling_alt. intros Hne H. rewrite rename_user_eq. simpl.
  autorewrite with proj. intros c ch m. rewrite lookup_fmap.
  destruct (channels st !! c) as [ch1|] eqn:E1; [|done].
  simpl. intros [= <-] Hm.
  assert (is_Some (renamed_users old new (users st) !! new)) as Hnew.
  { unfold renamed_users. destruct (users st !! old); [rewrite decide_False by done|];
      rewrite lookup_insert_eq; by eexists. }
  assert (forall k, k <> old -> is_Some (users st !! k) ->
                    is_Some (renamed_users old new (users st) !! k)) as Hkeep.
  { intros k Hk Hs. destruct (decide (k = new)) as [->|Hk']; [done|].
    unfold renamed_users. destruct (users st !! old);
      [rewrite decide_False by done|];
      rewrite lookup_insert_ne by done; [by rewrite lookup_delete_ne|done]. }
  unfold rename_member in Hm.
  destruct (bool_decide (old ∈ ch_users ch1)) eqn:Hold.
  - simpl in Hm. set_unfold. destruct Hm as [[Hm Hmo] | ->]; [|done].
    apply Hkeep; [done|]. by eapply H.
  - apply bool_decide_eq_false_1 in Hold. apply Hkeep; [|by eapply H].
    intros ->. done.
Qed.

Lemma run_op_no_dangling op st :
  no_dangling st -> renames_to_itself op = false ->
  no_dangling (state_of (run_op op st)).
Proof.
  intros H Hop. destruct op as [c|c|n|n md|a b|n c]; simpl.
  - apply no_dangling_alt. rewrite no_dangling_alt in H.
    unfold _create_channel. run. simpl. autorewrite with proj.
    intros k ch m. destruct (decide (k = c)) as [->|Hk].
    + rewrite lookup_insert_eq. intros [= <-]. simpl. set_solver.
    + rewrite lookup_insert_ne by done. apply H.
  - by rewrite destroy_channel_state.
  - apply no_dangling_alt. rewrite no_dangling_alt in H.
    unfold _create_user. run. simpl. autorewrite with proj.
    intros k ch m Hk Hm. destruct (decide (m = n)) as [->|Hmn].
    + rewrite lookup_insert_eq. by eexists.
    + rewrite lookup_insert_ne by done. by eapply H.
  - destruct (has_dot n) eqn:Hd.
    + by rewrite sync_user_server.
    + destruct (sync_user_tables n md st Hd) as (st' & -> & Hu & Hc).
      simpl. apply no_dangling_alt. rewrite no_dangling_alt in H.
      rewrite Hu, Hc. intros k ch m Hk Hm.
      destruct (decide (m = n)) as [->|Hmn].
      * unfold synced_users. destruct (users st !! n);
          rewrite lookup_insert_eq; by eexists.
      * unfold synced_users. destruct (users st !! n);
          rewrite lookup_insert_ne by done; by eapply H.
  - simpl in Hop. apply String.eqb_neq in Hop.
    by apply rename_user_no_dangling.
  - by apply destroy_user_no_dangling.
Qed.

(** From a registry without dangling references, every sequence of
    registry operations that never renames a user to the nickname it
    already has keeps the registry without dangling references. *)
Theorem no_dangling_kept ops st :
  no_dangling st ->
  Forall (fun op => renames_to_itself op = false) ops ->
  no_dangling (run_ops ops st).
Proof.
  intros H Hops. unfold run_ops. revert st H.
  induction Hops as [|op ops Hop _ IH]; intros st H; simpl; [done|].
  apply IH. by apply run_op_no_dangling.
Qed.

Lemma no_dangling_kept_witness :
  no_dangling
    (run_ops [RenameUser "bob" "rob"; DestroyUser "carol" (Some "#a");
              SyncUser "dave" ∅; DestroyUser "rob" None;
              CreateChannel "#a"] two_channels).
Proof.
  apply no_dangling_kept.
  - apply (bool_decide_unpack _). by vm_compute.
  - repeat constructor.
Defined.

(** ** The fields of user entries, and host masks *)

Lemma complete_new_user nick : complete_entry (new_user nick).
Proof. unfold complete_entry, new_user. repeat split; by eexists. Qed.

Lemma complete_update metadata u :
  complete_entry u -> complete_entry (update metadata u).
Proof.
  unfold complete_entry, update. intros (H1 & H2 & H3 & H4).
  repeat split; apply lookup_union_is_Some; by right.
Qed.

Lemma complete_relabel nick u :
  complete_entry u -> complete_entry (<["nickname" := Some nick]> u).
Proof.
  unfold complete_entry. intros (H1 & H2 & H3 & H4).
  repeat split; [by rewrite lookup_insert_eq|by rewrite lookup_insert_ne..].
Qed.

Lemma run_op_complete_entries op st :
  complete_entries st -> complete_entries (state_of (run_op op st)).
Proof.
  unfold complete_entries. intros H. destruct op as [c|c|n|n md|a b|n c]; simpl.
  - unfold _create_channel. run. simpl. by autorewrite with proj.
  - by rewrite destroy_channel_state.
  - unfold _create_user. run. simpl. autorewrite with proj.
    apply map_Forall_insert_2; [apply complete_new_user|done].
  - destruct (has_dot n) eqn:Hd.
    + by rewrite sync_user_server.
    + destruct (sync_user_tables n md st Hd) as (st' & -> & Hu & _).
      simpl. rewrite Hu. unfold synced_users.
      destruct (users st !! n) as [u|] eqn:E.
      * apply map_Forall_insert_2; [|done].
        apply complete_update. by eapply H.
      * apply map_Forall_insert_2; [|done].
        apply complete_update, complete_new_user.
  - rewrite rename_user_eq. simpl. autorewrite with proj.
    unfold renamed_users. destruct (users st !! a) as [u|] eqn:E.
    + destruct (decide (a = b)).
      * by apply map_Forall_delete.
      * apply map_Forall_insert_2; [|by apply map_Forall_delete].
        apply complete_relabel. by eapply H.
    + apply map_Forall_insert_2; [apply complete_new_user|done].
  - pose proof (destroy_user_tables n c st) as [_ [Hu | Hu]];
      simpl in Hu; rewrite Hu; [done|]. by apply map_Forall_delete.
Qed.

Lemma format_hostmask_complete nick st :
  complete_entries st ->
  exists mask, _format_hostmask nick st = Return mask st.
Proof.
  intros H. unfold _format_hostmask, getitem_field. run.
  destruct (users st !! nick) as [u|] eqn:E; simpl.
  - destruct (H _ _ E) as (_ & [v1 ->] & _ & [v2 ->]). by eexists.
  - by eexists.
Qed.

(** User entries keep the four fields they are created with through
    every sequence of registry operations, so [_format_hostmask] never
    fails on a missing field: it returns a mask for every nickname and
    leaves the client as it is. *)
Theorem format_hostmask_never_fails ops nick st :
  complete_entries st ->
  complete_entries (run_ops ops st) /\
  exists mask,
    _format_hostmask nick (run_ops ops st) = Return mask (run_ops ops st).
Proof.
  intros H.
  assert (complete_entries (run_ops ops st)) as H'.
  { unfold run_ops. revert st H.
    induction ops as [|op ops IH]; intros st H; simpl; [done|].
    apply IH. by apply run_op_complete_entries. }
  split; [done|]. by apply format_hostmask_complete.
Qed.

Lemma format_hostmask_never_fails_witness :
  complete_entries
    (run_ops [SyncUser "dave" {["account" := Some "d"]}; RenameUser "bob" "rob"]
       two_channels) /\
  exists mask,
    _format_hostmask "rob"
      (run_ops [SyncUser "dave" {["account" := Some "d"]}; RenameUser "bob" "rob"]
         two_channels)
    = Return mask
        (run_ops [SyncUser "dave" {["account" := Some "d"]}; RenameUser "bob" "rob"]
           two_channels).
Proof.
  apply format_hostmask_never_fails.
  apply (bool_decide_unpack _). by vm_compute.
Defined.

(** A nickname first heard of through [_sync_user] formats as
    nick!user@host with the user name and host name of the metadata,
    and a star for each one the metadata leaves out, sets to [None] or
    leaves empty. *)
Theorem sync_then_format nick metadata st :
  has_dot nick = false ->
  users st !! nick = None ->
  exists st',
    _sync_user nick metadata st = Return tt st' /\
    _format_hostmask nick st'
    = Return (nick ++ "!" ++ or_star (default None (metadata !! "username"))
                   ++ "@" ++ or_star (default None (metadata !! "hostname")))
             st'.
Proof.
  intros Hd Hu. destruct (sync_user_tables nick metadata st Hd) as (st' & E & Hus & _).
  exists st'. split; [done|].
  unfold _format_hostmask, getitem_field. run.
  rewrite Hus. unfold synced_users. rewrite Hu, lookup_insert_eq. simpl.
  unfold update, new_user.
  assert (forall key, key = "username" \/ key = "hostname" ->
            (metadata ∪ new_user nick) !! key
            = Some (default None (metadata !! key))) as Hf.
  { intros key Hk. rewrite lookup_union.
    destruct (metadata !! key) as [v|]; destruct Hk as [-> | ->]; done. }
  unfold new_user in Hf. by rewrite !Hf by auto.
Qed.

Lemma sync_then_format_witness :
  exists st',
    _sync_user "dave" {["username" := Some "dd"]} two_channels = Return tt st' /\
    _format_hostmask "dave" st' = Return "dave!dd@*" st'.
Proof.
  destruct (sync_then_format "dave" {["username" := Some "dd"]} two_channels)
    as (st' & E & F); [reflexivity..|].
  exists st'. split; [done|]. rewrite F. reflexivity.
Defined.

(** ** Metadata updates *)

Lemma update_idem metadata u : update metadata (update metadata u) = update metadata u.
Proof.
  unfold update. apply map_eq. intros k. rewrite !lookup_union.
  by destruct (metadata !! k), (u !! k).
Qed.

Lemma alter_update_twice metadata nick (us : gmap string user) :
  alter (update metadata) nick (alter (update metadata) nick us)
  = alter (update metadata) nick us.
Proof.
  apply map_eq. intros k. destruct (decide (k = nick)) as [->|Hk].
  - rewrite !lookup_alter_eq. destruct (us !! nick); simpl; [|done].
    by rewrite update_idem.
  - by rewrite !lookup_alter_ne.
Qed.

(** Applying the same metadata update twice is the same as applying it
    once: same outcome, same client. *)
Theorem sync_user_idempotent nick metadata st :
  (_sync_user nick metadata ;; _sync_user nick metadata) st
  = _sync_user nick metadata st.
Proof.
  destruct (has_dot nick) eqn:Hd.
  { run. by rewrite !sync_user_server. }
  destruct st as [pol nn un rn hn chs us buf lg nk nw co en hq aj ra tr].
  unfold _sync_user, _create_user. rewrite Hd. run. simpl.
  destruct (us !! nick) as [u|] eqn:E; simpl;
    destruct (is_same_nick nk nick) eqn:Hs; simpl;
    try (destruct (metadata !! "username"); simpl);
    try (destruct (metadata !! "hostname"); simpl);
    rewrite ?E, ?lookup_insert_eq; simpl;
    rewrite ?lookup_alter_eq, ?E, ?lookup_insert_eq; simpl;
    rewrite ?Hs; simpl.
  all: rewrite ?lookup_alter_eq, ?E, ?lookup_insert_eq; simpl.
  all: try rewrite alter_update_twice; reflexivity.
Qed.

(** What a metadata update does to the client's own identity: the user
    name and the host name are taken from the metadata when the update
    is about the client's current nickname (and that is no server
    name), and only then; the real name and the nickname are never
    touched, whatever the metadata holds. *)
Theorem sync_user_identity nick metadata st :
  let mine := (negb (has_dot nick) && is_same_nick (nickname st) nick)%bool in
  let st' := state_of (_sync_user nick metadata st) in
  username st' = (if mine then default (username st) (metadata !! "username")
                  else username st) /\
  hostname st' = (if mine then default (hostname st) (metadata !! "hostname")
                  else hostname st) /\
  realname st' = realname st /\
  nickname st' = nickname st.
Proof.
  destruct (has_dot nick) eqn:Hd; simpl.
  { by rewrite sync_user_server. }
  destruct st as [pol nn un rn hn chs us buf lg nk nw co en hq aj ra tr].
  unfold _sync_user, _create_user. rewrite Hd. run. simpl.
  destruct (us !! nick) as [u|] eqn:E; simpl;
    destruct (is_same_nick nk nick) eqn:Hs; simpl;
    try (destruct (metadata !! "username"); simpl);
    try (destruct (metadata !! "hostname"); simpl);
    rewrite ?E, ?lookup_insert_eq; simpl; done.
Qed.

(** ** The nickname stored in an entry *)

Lemma run_op_well_labelled op st :
  well_labelled st -> keeps_label op = true ->
  well_labelled (state_of (run_op op st)).
Proof.
  unfold well_labelled. intros H Hop.
  destruct op as [c|c|n|n md|a b|n c]; simpl.
  - unfold _create_channel. run. simpl. by autorewrite with proj.
  - by rewrite destroy_channel_state.
  - unfold _create_user. run. simpl. autorewrite with proj.
    by apply map_Forall_insert_2.
  - destruct (has_dot n) eqn:Hd.
    + by rewrite sync_user_server.
    + destruct (sync_user_tables n md st Hd) as (st' & -> & Hu & _).
      simpl. rewrite Hu. simpl in Hop. apply bool_decide_eq_true_1 in Hop.
      assert (forall u, u !! "nickname" = Some (Some n) ->
                update md u !! "nickname" = Some (Some n)) as Hup.
      { intros u Hn. unfold update. rewrite lookup_union.
        destruct Hop as [-> | ->]; by rewrite Hn. }
      unfold synced_users. destruct (users st !! n) as [u|] eqn:E.
      * apply map_Forall_insert_2; [|done]. apply Hup. by eapply H.
      * apply map_Forall_insert_2; [|done]. by apply Hup.
  - rewrite rename_user_eq. simpl. autorewrite with proj.
    unfold renamed_users. destruct (users st !! a) as [u|] eqn:E.
    + destruct (decide (a = b)).
      * by apply map_Forall_delete.
      * apply map_Forall_insert_2; [|by apply map_Forall_delete].
        by rewrite lookup_insert_eq.
    + by apply map_Forall_insert_2.
  - pose proof (destroy_user_tables n c st) as [_ [Hu | Hu]];
      simpl in Hu; rewrite Hu; [done|]. by apply map_Forall_delete.
Qed.

(** Every entry stores its own key as its nickname, and keeps doing so
    through every sequence of registry operations whose metadata
    updates leave the nickname field out or repeat the key. *)
Theorem well_labelled_kept ops st :
  well_labelled st ->
  Forall (fun op => keeps_label op = true) ops ->
  well_labelled (run_ops ops st).
Proof.
  intros H Hops. unfold run_ops. revert st H.
  induction Hops as [|op ops Hop _ IH]; intros st H; simpl; [done|].
  apply IH. by apply run_op_well_labelled.
Qed.

Lemma well_labelled_kept_witness :
  well_labelled
    (run_ops [SyncUser "dave" {["nickname" := Some "dave"]};
              RenameUser "bob" "rob"; SyncUser "rob" {["username" := Some "r"]};
              DestroyUser "carol" None] two_channels).
Proof.
  apply well_labelled_kept.
  - apply (bool_decide_unpack _). by vm_compute.
  - repeat constructor.
Defined.

(** * Further properties of the connection supervisor *)

Section SupervisorMore.
Variable DEFAULT_PORT : Z.
Variable DEFAULT_ENCODING : string.

Local Abbreviation connect := (connect DEFAULT_PORT DEFAULT_ENCODING).
Local Abbreviation disconnect := (disconnect DEFAULT_PORT DEFAULT_ENCODING).
Local Abbreviation on_disconnect := (on_disconnect DEFAULT_PORT DEFAULT_ENCODING).
Local Abbreviation on_data_error := (on_data_error DEFAULT_PORT DEFAULT_ENCODING).

(** Whenever a connect that is no reconnect returns, the connection
    attributes are exactly what the call was given, whatever they were
    before and whether or not the client was connected: a new,
    connected transport to the given host and port, the given encoding
    and auto-join list, the quit flag unset and the attempt counter at
    0. *)
Theorem connect_sets_connection_attributes depth host port kw st st' :
  connect depth host port false kw st = Return tt st' ->
  exists h p,
    host = Some h /\ port = Some p /\
    connection st' = Some {| conn_hostname := Some h; conn_port := p;
                             conn_source_address := kw_source_address kw;
                             conn_connected := true |} /\
    encoding st' = Some (kw_encoding kw) /\
    _autojoin_channels st' = kw_channels kw /\
    _has_quit st' = false /\
    _reconnect_attempts st' = 0%nat.
Proof.
  destruct depth as [|d]; [by simpl|].
  destruct st as [pol nn un rn hn chs us buf lg nk nw co en hq aj ra tr].
  simpl.
  destruct (truthy_str host) eqn:Hh; [|by simpl].
  destruct (truthy_int port) eqn:Hp; [|by simpl].
  destruct host as [h|]; [|done]. destruct port as [p|]; [|done].
  simpl. run. simpl.
  destruct (connected _).
  - match goal with
    | |- context [disconnect d ?s] => destruct (disconnect d s) as [[] s1|e s1]
    end; [|done].
    destruct s1 as [pol1 nn1 un1 rn1 hn1 chs1 us1 buf1 lg1 nk1 nw1 co1 en1 hq1 aj1 ra1 tr1].
    simpl. destruct (server_tag _); [|done].
    simpl. intros [= <-]. simpl. simpl in Hp. rewrite Hp. by exists h, p.
  - simpl. destruct (server_tag _); [|done].
    simpl. intros [= <-]. simpl. simpl in Hp. rewrite Hp. by exists h, p.
Qed.

(** A connect on a client that is not connected does not touch what the
    session knows: channels, users, nickname, network tag and receive
    buffer stay as they are, and the transport is told to connect and
    its two callbacks are registered, in that order. *)
Theorem connect_offline_keeps_session depth host port kw st :
  connected st = false ->
  truthy_str host = true ->
  truthy_int port = true ->
  exists st',
    connect (S depth) host port false kw st = Return tt st' /\
    channels st' = channels st /\ users st' = users st /\
    nickname st' = nickname st /\ network st' = network st /\
    _receive_buffer st' = _receive_buffer st /\
    trace st' = (trace st ++
                 [TransportConnect; TransportOn "read"; TransportOn "error"])%list.
Proof.
  intros Hc Hh Hp.
  destruct st as [pol nn un rn hn chs us buf lg nk nw co en hq aj ra tr].
  unfold connected in Hc. simpl in *. rewrite Hh, Hp. simpl. run. simpl.
  unfold connected. simpl. rewrite Hc. simpl.
  match goal with
  | |- context [server_tag ?s] =>
      destruct (server_tag_online s
                  {| conn_hostname := host;
                     conn_port := if truthy_int port then default 0%Z port
                                  else DEFAULT_PORT;
                     conn_source_address := kw_source_address kw;
                     conn_connected := true |} eq_refl eq_refl Hh) as [tag ->]
  end.
  simpl. eexists. split; [reflexivity|]. simpl.
  repeat split. by rewrite <- !app_assoc.
Qed.

(** A reconnect on a client that holds a disconnected transport uses
    that transport again, whatever host and port the call is given, and
    keeps the encoding, the auto-join list, the attempt counter, the
    quit flag and the registry. *)
Theorem reconnect_reuses_transport depth host port kw st c :
  connection st = Some c ->
  conn_connected c = false ->
  truthy_str (conn_hostname c) = true ->
  exists st',
    connect (S depth) host port true kw st = Return tt st' /\
    connection st' = Some (conn_connect c) /\
    encoding st' = encoding st /\
    _autojoin_channels st' = _autojoin_channels st /\
    _reconnect_attempts st' = _reconnect_attempts st /\
    _has_quit st' = _has_quit st /\
    channels st' = channels st /\ users st' = users st /\
    nickname st' = nickname st.
Proof.
  intros Hc Hcc Hh.
  destruct st as [pol nn un rn hn chs us buf lg nk nw co en hq aj ra tr].
  simpl in *. subst. rewrite andb_false_r. run. simpl.
  unfold connected. simpl. rewrite Hcc. simpl.
  match goal with
  | |- context [server_tag ?s] =>
      destruct (server_tag_online s (conn_connect c) eq_refl eq_refl Hh)
        as [tag ->]
  end.
  simpl. eexists. split; [reflexivity|]. simpl. by repeat split.
Qed.

(** [on_connect] puts the attempt counter back to 0 before it joins the
    channels: as long as joining leaves the counter alone, the counter
    is 0 afterwards, also when a join raised and the later channels
    were not joined. *)
Theorem on_connect_resets_counter (join : string -> M unit) st :
  (forall chan s,
     _reconnect_attempts (state_of (join chan s)) = _reconnect_attempts s) ->
  _reconnect_attempts (state_of (on_connect join st)) = 0%nat.
Proof.
  intros Hjoin. unfold on_connect. run. simpl.
  assert (forall l s, _reconnect_attempts (state_of (for_each l join s))
                      = _reconnect_attempts s) as Hall.
  { induction l as [|chan l IH]; intros s; simpl; [done|]. run.
    specialize (Hjoin chan s). destruct (join chan s) as [[] s1|e s1];
      simpl in *; [by rewrite IH|done]. }
  rewrite Hall. by destruct st.
Qed.

(** The attempt counter stays within the maximum of the class through
    [connect], [disconnect] and [on_disconnect], at every depth of
    their mutual calls and whether they return or raise. *)
Lemma supervisor_within_budget pol most :
  RECONNECT_MAX_ATTEMPTS pol = Some most ->
  forall depth,
    (forall host port reconnect kw st,
       within_budget pol most st ->
       within_budget pol most (state_of (connect depth host port reconnect kw st))) /\
    (forall st, within_budget pol most st ->
       within_budget pol most (state_of (disconnect depth st))) /\
    (forall expected st, within_budget pol most st ->
       within_budget pol most (state_of (on_disconnect depth expected st))).
Proof.
  intros Hmax. unfold within_budget.
  induction depth as [|d (IHc & IHd & IHo)];
    [simpl; split; [|split]; intros; tauto|].
  split; [|split].
  - intros host port reconnect kw st [Hp Hn].
    destruct st as [pol0 nn un rn hn chs us buf lg nk nw co en hq aj ra tr].
    simpl in *. subst pol0.
    destruct ((negb (truthy_str host) || negb (truthy_int port)) && negb reconnect)%bool;
      [by simpl|].
    run. simpl.
    destruct (connected _).
    + match goal with
      | |- context [disconnect d ?s] =>
          pose proof (IHd s (conj eq_refl Hn)) as Hd;
          destruct (disconnect d s) as [[] s1|e s1]
      end; simpl in Hd; [|done].
      destruct s1 as [pol1 nn1 un1 rn1 hn1 chs1 us1 buf1 lg1 nk1 nw1 co1 en1 hq1 aj1 ra1 tr1].
      simpl in *. destruct Hd as [-> Hn1].
      destruct reconnect; simpl; [destruct co1 as [c1|]; simpl|];
        destruct (server_tag _); simpl; (split; [done|lia]).
    + destruct reconnect; simpl; [destruct co as [c1|]; simpl|];
        destruct (server_tag _); simpl; (split; [done|lia]).
  - intros st [Hp Hn].
    destruct st as [pol0 nn un rn hn chs us buf lg nk nw co en hq aj ra tr].
    simpl in *. subst pol0. run. simpl. destruct co as [c|]; [|done].
    destruct (conn_connected c); simpl; [|done].
    match goal with
    | |- context [on_disconnect d ?e ?s] =>
        pose proof (IHo e s (conj eq_refl Hn)) as Ho;
        destruct (on_disconnect d e s) as [[] s1|e1 s1]
    end; simpl in Ho; [|done].
    by destruct s1.
  - intros expected st [Hp Hn].
    destruct st as [pol0 nn un rn hn chs us buf lg nk nw co en hq aj ra tr].
    simpl in *. subst pol0. run. destruct expected; simpl; [done|].
    rewrite Hmax. destruct (RECONNECT_ON_ERROR pol); simpl; [|done].
    destruct (Nat.ltb_spec ra most) as [Hlt|Hge]; simpl; [|done].
    rewrite reconnect_delay_cases. simpl.
    destruct (if backoff pol then _ else _) as [x s|e s] eqn:Hx.
    2:{ destruct (backoff pol); [destruct (scheduled pol ra)|]; by inversion Hx. }
    assert (s = {| cls := pol; _nicknames := nn; username := un; realname := rn;
                 hostname := hn; channels := chs; users := us;
                 _receive_buffer := buf; logger := lg; nickname := nk;
                 network := nw; connection := co; encoding := en;
                 _has_quit := hq; _autojoin_channels := aj;
                 _reconnect_attempts := ra; trace := tr |}) as ->.
    { destruct (backoff pol); [destruct (scheduled pol ra)|]; by inversion Hx. }
    clear Hx. unfold time_sleep. run.
    destruct (0 <? x)%Z; destruct (x <? 0)%Z; simpl; try (split; [done|lia]);
      match goal with
      | |- context [connect d ?h ?p ?r ?k ?s] =>
          apply (IHc h p r k s); simpl; split; [done|lia]
      end.
Qed.

(** However many transport errors follow one another, the attempt
    counter of a class with a maximum never passes that maximum. *)
Theorem attempts_never_exceed_maximum depth n st most :
  RECONNECT_MAX_ATTEMPTS (cls st) = Some most ->
  (_reconnect_attempts st <= most)%nat ->
  (_reconnect_attempts (transport_errors DEFAULT_PORT DEFAULT_ENCODING depth n st)
   <= most)%nat.
Proof.
  intros Hmax Hn.
  assert (within_budget (cls st) most
            (transport_errors DEFAULT_PORT DEFAULT_ENCODING depth n st)) as [_ H];
    [|done].
  induction n as [|n IH]; simpl; [by split|].
  destruct depth as [|d]; [done|]. simpl.
  by apply (supervisor_within_budget (cls st) most Hmax d).
Qed.
End SupervisorMore.

Lemma connect_sets_connection_attributes_witness :
  connection
    (state_of (connect 6667 "utf-8" 5 (Some "irc.example.com") (Some 6697%Z) false
                 {| kw_channels := ["#a"]; kw_encoding := "latin-1";
                    kw_source_address := None |} (online BasicClient_policy)))
  = Some {| conn_hostname := Some "irc.example.com"; conn_port := 6697;
            conn_source_address := None; conn_connected := true |} /\
  _reconnect_attempts
    (state_of (connect 6667 "utf-8" 5 (Some "irc.example.com") (Some 6697%Z) false
                 {| kw_channels := ["#a"]; kw_encoding := "latin-1";
                    kw_source_address := None |} (online BasicClient_policy)))
  = 0%nat.
Proof.
  destruct (connect_sets_connection_attributes 6667 "utf-8" 5
              (Some "irc.example.com") (Some 6697%Z)
              {| kw_channels := ["#a"]; kw_encoding := "latin-1";
                 kw_source_address := None |}
              (online BasicClient_policy)
              (state_of (connect 6667 "utf-8" 5 (Some "irc.example.com")
                           (Some 6697%Z) false
                           {| kw_channels := ["#a"]; kw_encoding := "latin-1";
                              kw_source_address := None |}
                           (online BasicClient_policy))))
    as (h & p & Hh & Hp & Hc & _ & _ & _ & Hn).
  - by vm_compute.
  - injection Hh as <-. injection Hp as <-. by split.
Defined.

Lemma connect_offline_keeps_session_witness :
  exists st',
    connect 6667 "utf-8" 1 (Some "irc.example.com") (Some 6667%Z) false
      (default_kwargs "utf-8") two_channels = Return tt st' /\
    channels st' = channels two_channels /\ users st' = users two_channels /\
    nickname st' = nickname two_channels /\ network st' = network two_channels /\
    _receive_buffer st' = _receive_buffer two_channels /\
    trace st' = (trace two_channels ++
                 [TransportConnect; TransportOn "read"; TransportOn "error"])%list.
Proof.
  apply (connect_offline_keeps_session 6667 "utf-8" 0); reflexivity.
Defined.

Lemma reconnect_reuses_transport_witness :
  exists st',
    connect 6667 "utf-8" 1 (Some "other.example.org") (Some 7000%Z) true
      (default_kwargs "utf-8")
      (transport_errors 6667 "utf-8" 4 3 (online quick_policy)) = Return tt st' /\
    connection st'
    = Some {| conn_hostname := Some "irc.example.com"; conn_port := 6667;
              conn_source_address := None; conn_connected := true |} /\
    _reconnect_attempts st' = 2%nat.
Proof.
  destruct (reconnect_reuses_transport 6667 "utf-8" 0 (Some "other.example.org")
              (Some 7000%Z) (default_kwargs "utf-8")
              (transport_errors 6667 "utf-8" 4 3 (online quick_policy))
              {| conn_hostname := Some "irc.example.com"; conn_port := 6667;
                 conn_source_address := None; conn_connected := false |})
    as (st' & E & Hc & _ & _ & Hn & _); [by vm_compute|reflexivity|reflexivity|].
  exists st'. split; [done|]. split; [done|]. rewrite Hn. by vm_compute.
Defined.

Lemma on_connect_resets_counter_witness :
  _reconnect_attempts
    (state_of (on_connect (fun chan => modify (emit (TransportSend ("JOIN " ++ chan))))
                 (set_autojoin_channels ["#a"; "#b"]
                    (transport_errors 6667 "utf-8" 4 2 (online quick_policy)))))
  = 0%nat.
Proof.
  apply on_connect_resets_counter. intros chan s. by destruct s.
Defined.

Lemma attempts_never_exceed_maximum_witness :
  (_reconnect_attempts (transport_errors 6667 "utf-8" 4 7 (online BasicClient_policy))
   <= 3)%nat.
Proof.
  apply attempts_never_exceed_maximum; [reflexivity|]. vm_compute. lia.
Defined.

(** * Further properties of the dispatch *)

Lemma string_app_assoc (s t u : string) : (s ++ t) ++ u = s ++ t ++ u.
Proof.
  induction s as [|c s IH]; [done|].
  change (String c ((s ++ t) ++ u) = String c (s ++ t ++ u)). by rewrite IH.
Qed.

(** A message whose command has no hook, in a class that does not
    define [on_unknown] itself, is only logged: [on_raw] returns, and
    the client differs from before by the lines in its log, the last of
    which is the warning about the unknown command. *)
Theorem unknown_command_only_logs hooks msg st :
  hooks !! method_name msg = None ->
  hooks !! "on_unknown" = None ->
  on_raw hooks msg st
  = Return tt
      (fold_left (fun s ev => emit ev s)
         ([Log DEBUG "<< [%s] %s %s"
             [ArgStr (if truthy_str (source msg) then default "" (source msg) else "");
              command_arg msg; ArgList (params msg)]] ++
          (if _valid msg then []
           else [Log WARNING
                   "Encountered strictly invalid IRC message from server: %s"
                   [ArgStr (_raw msg)]]) ++
          [Log WARNING "Unknown command: [%s] %s %s"
             [ArgVal (source msg); command_arg msg; ArgList (params msg)]])%list
         st).
Proof.
  intros Hm Hu.
  assert (getattr hooks (method_name msg) = None) as Hg.
  { unfold getattr. rewrite Hm. unfold method_name. by simpl. }
  assert (resolve hooks msg = "on_unknown") as Hr.
  { unfold resolve. rewrite Hg. by rewrite bool_decide_eq_false_2 by (by intros [? ?]). }
  rewrite (on_raw_cases hooks msg st on_unknown).
  2:{ rewrite Hr. unfold getattr. by rewrite Hu. }
  unfold on_unknown, announce. run. by destruct (_valid msg).
Qed.

Lemma unknown_command_only_logs_witness :
  on_raw example_hooks
    {| source := Some "irc.example.com"; command := inl 433%Z;
       params := ["alice"]; _valid := false; _raw := ":irc.example.com 433 alice" |}
    alice
  = Return tt
      (fold_left (fun s ev => emit ev s)
         [Log DEBUG "<< [%s] %s %s"
            [ArgStr "irc.example.com"; ArgInt 433; ArgList ["alice"]];
          Log WARNING "Encountered strictly invalid IRC message from server: %s"
            [ArgStr ":irc.example.com 433 alice"];
          Log WARNING "Unknown command: [%s] %s %s"
            [ArgVal (Some "irc.example.com"); ArgInt 433; ArgList ["alice"]]]
         alice).
Proof.
  apply (unknown_command_only_logs example_hooks
           {| source := Some "irc.example.com"; command := inl 433%Z;
              params := ["alice"]; _valid := false;
              _raw := ":irc.example.com 433 alice" |} alice); reflexivity.
Defined.

(** Feeding data that does not complete a message only extends the
    receive buffer, and feeding the rest afterwards does what feeding
    both pieces at once does. *)
Theorem on_data_in_pieces hooks has_complete_message parse_one fuel1 fuel first rest st :
  has_complete_message (_receive_buffer st ++ first) = false ->
  on_data hooks has_complete_message parse_one fuel1 first st
    = Some (Return tt (set_receive_buffer (_receive_buffer st ++ first) st)) /\
  on_data hooks has_complete_message parse_one fuel rest
    (set_receive_buffer (_receive_buffer st ++ first) st)
  = on_data hooks has_complete_message parse_one fuel (first ++ rest) st.
Proof.
  intros H. unfold on_data. split.
  - apply dispatch_loop_done. by rewrite buffer_set_receive_buffer.
  - rewrite buffer_set_receive_buffer. f_equal.
    rewrite <- string_app_assoc. by destruct st.
Qed.

Lemma on_data_in_pieces_witness :
  on_data example_hooks line_has_message line_parse 0 "PI" alice
    = Some (Return tt (set_receive_buffer (_receive_buffer alice ++ "PI") alice)) /\
  on_data example_hooks line_has_message line_parse 3 ("NG" ++ newline)
    (set_receive_buffer (_receive_buffer alice ++ "PI") alice)
  = on_data example_hooks line_has_message line_parse 3
      ("PI" ++ "NG" ++ newline) alice.
Proof.
  apply (on_data_in_pieces example_hooks line_has_message line_parse 0 3
           "PI" ("NG" ++ newline) alice).
  reflexivity.
Defined.

Lemma method_name_command m1 m2 :
  command m1 = command m2 -> method_name m1 = method_name m2.
Proof. unfold method_name. by intros ->. Qed.

Lemma three_digit_names :
  Forall (fun n => method_name (numeric n) = "on_raw_" ++ three_digits n)
         (seqZ 0 1000).
Proof. apply (bool_decide_unpack _). by vm_compute. Qed.

(** A numeric command from 0 to 999 is routed under its three decimal
    digits, with leading zeros: 1 goes to on_raw_001, 433 to
    on_raw_433. *)
Theorem numeric_command_is_zero_padded msg n :
  command msg = inl n ->
  (0 <= n < 1000)%Z ->
  method_name msg = "on_raw_" ++ three_digits n.
Proof.
  intros Hc Hn. rewrite (method_name_command msg (numeric n)) by done.
  pose proof three_digit_names as H. rewrite Forall_forall in H.
  apply H. apply elem_of_seqZ. lia.
Qed.

Lemma numeric_command_is_zero_padded_witness :
  method_name {| source := Some "irc.example.com"; command := inl 1%Z;
                 params := ["alice"; "Welcome"]; _valid := true; _raw := "" |}
  = "on_raw_001".
Proof.
  apply (numeric_command_is_zero_padded
           {| source := Some "irc.example.com"; command := inl 1%Z;
              params := ["alice"; "Welcome"]; _valid := true; _raw := "" |} 1);
    [reflexivity|lia].
Defined.

(** * Further properties of the pool *)

Section PoolMore.
Variable session : Type.
Variable result : Type.
Variable session_has_message : session -> bool.
Variable session_poll_single : session -> result * session.

Local Abbreviation pool := (ClientPool session).
Local Abbreviation next_ready := (next_ready session session_has_message).
Local Abbreviation ready_at := (ready_at session session_has_message).
Local Abbreviation handle_message :=
  (handle_message session result session_has_message session_poll_single).

(** [handle_message] always comes to an end, although it loops over an
    endless cycle: when no session has a message it raises
    [NoMessageAvailable], and otherwise it services a session that has
    one. *)
Theorem handle_message_never_hangs (p : pool) :
  (client_cycle session p < length (clients session p))%nat ->
  match handle_message p with
  | Some (inl e) => e = NoMessageAvailable /\ forall i, ready_at p i = false
  | Some (inr (i, _, _)) => ready_at p i = true
  | None => False
  end.
Proof.
  intros Hpos. unfold handle_message.
  destruct (has_message session session_has_message p) eqn:Hh; simpl.
  - destruct (next_ready p _ _) as [i|] eqn:En.
    + apply next_ready_first in En as (k & _ & _ & Hr & _); [|done].
      unfold ready_at in Hr.
      destruct (clients session p !! i) as [c|] eqn:Ec; [|done].
      destruct (session_poll_single c). unfold ready_at. by rewrite Ec.
    + apply existsb_ready in Hh as [j Hj].
      assert (j < length (clients session p))%nat as Hlt.
      { unfold ready_at in Hj.
        destruct (clients session p !! j) eqn:E; [|done].
        by eapply lookup_lt_Some. }
      pose proof (next_ready_none _ _ p _ _ Hpos En
                    ((j + length (clients session p) - client_cycle session p)
                       mod length (clients session p))%nat) as Hn.
      rewrite Nat.Div0.add_mod_idemp_r in Hn.
      replace (client_cycle session p
               + (j + length (clients session p) - client_cycle session p))%nat
        with (j + 1 * length (clients session p))%nat in Hn by lia.
      rewrite Nat.Div0.mod_add, (Nat.mod_small j) in Hn by done.
      rewrite Hn in Hj; [done|]. apply Nat.mod_upper_bound. lia.
  - split; [done|]. intros i.
    destruct (ready_at p i) eqn:Hi; [|done].
    assert (has_message session session_has_message p = true) as Ht
      by (apply existsb_ready; eauto).
    congruence.
Qed.

(** When every session of the pool has a message, and keeps having one
    after a message of its has been consumed, consecutive calls of
    [handle_message] service the sessions one after the other in the
    cyclic order, starting at the cursor. *)
Theorem busy_sessions_take_turns k (p : pool) :
  (forall c, session_has_message c = true ->
             session_has_message (session_poll_single c).2 = true) ->
  Forall (fun c => session_has_message c = true) (clients session p) ->
  (client_cycle session p < length (clients session p))%nat ->
  serviced_order session_has_message session_poll_single k p
  = map (fun j => ((client_cycle session p + j) mod length (clients session p))%nat)
        (seq 0 k).
Proof.
  intros Hkeep. revert p. induction k as [|k IH]; intros p Hall Hpos; [done|].
  destruct (clients session p !! client_cycle session p) as [c|] eqn:Ec.
  2:{ apply lookup_ge_None in Ec. lia. }
  assert (session_has_message c = true) as Hc.
  { rewrite Forall_lookup in Hall. by eapply Hall. }
  assert (has_message session session_has_message p = true) as Hh.
  { apply existsb_ready. exists (client_cycle session p).
    unfold ready_at. by rewrite Ec. }
  assert (next_ready p (length (clients session p)) (client_cycle session p)
          = Some (client_cycle session p)) as Hn.
  { destruct (length (clients session p)); [lia|]. simpl. by rewrite Ec, Hc. }
  cbn [serviced_order]. unfold handle_message. rewrite Hh, Hn, Ec. cbn [negb].
  destruct (session_poll_single c) as [r c'] eqn:Ep.
  cbn [seq map]. rewrite Nat.add_0_r, (Nat.mod_small (client_cycle session p)) by done.
  f_equal. rewrite IH; cbn [clients client_cycle].
  - rewrite length_insert. unfold advance.
    rewrite <- seq_shift, map_map. apply map_ext. intros j.
    rewrite Nat.Div0.add_mod_idemp_l. f_equal. lia.
  - apply Forall_insert; [done|]. specialize (Hkeep c Hc). by rewrite Ep in Hkeep.
  - rewrite length_insert. unfold advance. apply Nat.mod_upper_bound. lia.
Qed.
End PoolMore.

Lemma handle_message_never_hangs_witness :
  match handle_message nat nat counter_has_message counter_poll_single
          {| clients := [0; 0; 3]%nat; client_cycle := 1 |} with
  | Some (inl e) =>
      e = NoMessageAvailable /\
      forall i, ready_at nat counter_has_message
                  {| clients := [0; 0; 3]%nat; client_cycle := 1 |} i = false
  | Some (inr (i, _, _)) =>
      ready_at nat counter_has_message
        {| clients := [0; 0; 3]%nat; client_cycle := 1 |} i = true
  | None => False
  end.
Proof.
  apply (handle_message_never_hangs nat nat counter_has_message
           counter_poll_single {| clients := [0; 0; 3]%nat; client_cycle := 1 |}).
  simpl. lia.
Defined.

Lemma busy_sessions_take_turns_witness :
  serviced_order (fun _ : nat => true) (fun n : nat => (n, S n)) 5
    {| clients := [10; 20; 30]%nat; client_cycle := 1 |}
  = [1; 2; 0; 1; 2]%nat.
Proof.
  apply (busy_sessions_take_turns nat nat (fun _ => true) (fun n => (n, S n)) 5
           {| clients := [10; 20; 30]%nat; client_cycle := 1 |}).
  - done.
  - by repeat constructor.
  - simpl. lia.
Defined.
